(** * Compliance engine, content classifier, remediation planner and
    aggregators of mp4convertor (src/src/lib.rs), shallow embedding.

    Rust [String]s are modelled as Stdlib [string]s of ASCII characters;
    [str::to_lowercase] is modelled on the ASCII range ([A-Z] to [a-z]),
    and [str::contains(&str)] as substring search (the empty pattern is
    found in every string, as in Rust). [Vec<String>::contains] is
    membership by string equality. *)

From Stdlib Require Import Bool Arith ZArith QArith Qround Qabs List Lia.
From Stdlib Require Import DecimalString.
From Stdlib Require Import Strings.String Strings.Ascii.
Import ListNotations.
Open Scope string_scope.

(** ** String helpers *)

Definition ascii_to_lower (c : ascii) : ascii :=
  let n := nat_of_ascii c in
  if (65 <=? n)%nat && (n <=? 90)%nat then ascii_of_nat (n + 32) else c.

(** [str::to_lowercase] *)
Fixpoint to_lowercase (s : string) : string :=
  match s with
  | EmptyString => EmptyString
  | String c s' => String (ascii_to_lower c) (to_lowercase s')
  end.

Fixpoint starts_with (p s : string) : bool :=
  match p, s with
  | EmptyString, _ => true
  | String c p', String d s' => Ascii.eqb c d && starts_with p' s'
  | String _ _, EmptyString => false
  end.

(** [str::contains(&str)]: [p] occurs in [s] at some position. *)
Fixpoint contains (s p : string) : bool :=
  starts_with p s ||
  match s with
  | EmptyString => false
  | String _ s' => contains s' p
  end.

(** [Vec<String>::contains] *)
Definition vec_contains (l : list string) (x : string) : bool :=
  existsb (String.eqb x) l.

(** [[String]::join] *)
Fixpoint join (sep : string) (l : list string) : string :=
  match l with
  | [] => ""
  | [x] => x
  | x :: l' => x ++ sep ++ join sep l'
  end.

(** ** Binary64 arithmetic on finite values

    An [f64] value is modelled by the rational it denotes. Every
    arithmetic operation is the exact operation followed by rounding to
    the nearest value with a 53-bit significand, ties to even
    ([round_f64]). Overflow to infinity, subnormals, NaN and signed zero
    are not modelled: all values used below are normal finite numbers. *)

Definition two_pow (e : Z) : Q :=
  if (0 <=? e)%Z then inject_Z (2 ^ e) else 1 # Z.to_pos (2 ^ (- e)).

Definition round_f64 (x : Q) : Q :=
  let n := Qnum x in
  let d := Zpos (Qden x) in
  if (n =? 0)%Z then 0 else
  let a := Z.abs n in
  let e0 := (Z.log2 a - Z.log2 d - 52)%Z in
  let scaled (e : Z) :=
    if (0 <=? e)%Z then (a, (d * 2 ^ e)%Z) else ((a * 2 ^ (- e))%Z, d) in
  let e := let '(nu, de) := scaled e0 in
           if (nu / de <? 2 ^ 52)%Z then (e0 - 1)%Z else e0 in
  let '(nu, de) := scaled e in
  let q := (nu / de)%Z in
  let r := (nu mod de)%Z in
  let m := if (de <? 2 * r)%Z then (q + 1)%Z
           else if (2 * r <? de)%Z then q
           else if Z.even q then q else (q + 1)%Z in
  inject_Z (Z.sgn n * m) * two_pow e.

Definition fmul (x y : Q) : Q := round_f64 (x * y).
Definition fadd (x y : Q) : Q := round_f64 (x + y).
Definition fdiv (x y : Q) : Q := round_f64 (x / y).

(** [x < y] on finite values. *)
Definition Qlt_bool (x y : Q) : bool := negb (Qle_bool y x).

(** A decimal literal [m / 10^k] as the compiler reads it. *)
Definition f64_lit (num : Z) (den : positive) : Q := round_f64 (num # den).

(** [x as f64] for an integer small enough to be exact. *)
Definition f64_of_nat (n : nat) : Q := inject_Z (Z.of_nat n).

(** ** Data model *)

Inductive ViolationSeverity := Critical | Warning | Info.

Inductive ViolationCategory :=
| VideoCodec | AudioCodec | Resolution | FrameRate | Bitrate
| Container | ColorSpace | HDR | Profile | Audio.

(** [#[derive(PartialEq)]] on [ViolationCategory] *)
Definition category_eqb (a b : ViolationCategory) : bool :=
  match a, b with
  | VideoCodec, VideoCodec | AudioCodec, AudioCodec
  | Resolution, Resolution | FrameRate, FrameRate | Bitrate, Bitrate
  | Container, Container | ColorSpace, ColorSpace | HDR, HDR
  | Profile, Profile | Audio, Audio => true
  | _, _ => false
  end.

Record ComplianceViolation := mkViolation {
  severity : ViolationSeverity;
  category : ViolationCategory;
  description : string;
  current_value : string;
  expected_value : string;
}.

Record ComplianceResult := mkResult {
  is_compliant : bool;
  score : nat;  (* u8; it only decreases from 100 *)
  violations : list ComplianceViolation;
  recommendations : list string;
}.

(** The fields of [VideoMetadata] the core reads; [f64] fields as in
    the binary64 model above. *)
Record VideoMetadata := mkMetadata {
  codec : string;
  resolution : string;
  duration : Q;
  fps : Q;
  audio_codec : string;
  container : string;
  color_space : string;
}.

(** The fields of [ContentStandards] (video, audio and quality
    standards) that [analyze_compliance] reads. *)
Record ContentStandards := mkStandards {
  preferred_resolutions : list string;
  acceptable_resolutions : list string;
  preferred_codecs : list string;
  containers : list string;
  unsupported_containers : list string;
  audio_preferred_codecs : list string;
  audio_acceptable_codecs : list string;
  unsupported_color_spaces : list string;
  hdr_restrictions : list string;
}.

(** [ContentStandards::load_default] *)
Definition load_default : ContentStandards := {|
  preferred_resolutions := ["1280x720"; "1920x1080"; "720x1280"; "1080x1920"];
  acceptable_resolutions := ["1360x768"; "1280x800"; "1600x900"; "1440x900";
                             "1680x1048"; "1440x810"; "2160x3840"];
  preferred_codecs := ["h264"; "libx264"];
  containers := ["mp4"; "mov"];
  unsupported_containers := ["mkv"];
  audio_preferred_codecs := ["pcm"; "alac"];
  audio_acceptable_codecs := ["aac"];
  unsupported_color_spaces := ["bt2020"; "dci-p3"; "rec2020"];
  hdr_restrictions := ["hdr10"; "hdr10+"; "dolby_vision"; "hlg"];
|}.

(** ** ComplianceEngine::analyze_compliance

    The local variables [violations], [recommendations] and [score] of
    the Rust function are threaded through the rules as a state. *)

Record EngineState := mkState {
  st_violations : list ComplianceViolation;
  st_recommendations : list string;
  st_score : nat;
}.

Definition init_state : EngineState := mkState [] [] 100.

(** [violations.push(v); score = score.saturating_sub(d)] and, when
    given, [recommendations.push(r)]. [nat] subtraction saturates at 0. *)
Definition emit (v : ComplianceViolation) (d : nat) (r : option string)
    (st : EngineState) : EngineState :=
  mkState (st_violations st ++ [v])
          (match r with
           | Some s => st_recommendations st ++ [s]
           | None => st_recommendations st
           end)
          (st_score st - d).

Section Engine.
Variable std : ContentStandards.
Variable m : VideoMetadata.

Definition check_codec (st : EngineState) : EngineState :=
  if negb (vec_contains (preferred_codecs std) (codec m)) then
    emit (mkViolation Critical VideoCodec "Video codec not in preferred list"
            (codec m) (join ", " (preferred_codecs std)))
         20 (Some "Convert to H.264 codec for optimal compatibility") st
  else st.

Definition check_resolution (st : EngineState) : EngineState :=
  let is_preferred_res := vec_contains (preferred_resolutions std) (resolution m) in
  let is_acceptable_res := vec_contains (acceptable_resolutions std) (resolution m) in
  if negb is_preferred_res && negb is_acceptable_res then
    emit (mkViolation Critical Resolution "Resolution not supported"
            (resolution m) ("Preferred: " ++ join ", " (preferred_resolutions std)))
         25 (Some "Resize to 1920x1080 or 1280x720 for standard content") st
  else if negb is_preferred_res then
    emit (mkViolation Warning Resolution "Resolution acceptable but not preferred"
            (resolution m) ("Preferred: " ++ join ", " (preferred_resolutions std)))
         10 None st
  else st.

Definition check_container (st : EngineState) : EngineState :=
  if vec_contains (unsupported_containers std) (to_lowercase (container m)) then
    emit (mkViolation Critical Container "Container format not supported"
            (container m) (join ", " (containers std)))
         15 (Some "Convert to MP4 or MOV container") st
  else st.

Definition check_audio (st : EngineState) : EngineState :=
  if negb (vec_contains (audio_preferred_codecs std) (audio_codec m))
     && negb (vec_contains (audio_acceptable_codecs std) (audio_codec m)) then
    emit (mkViolation Warning AudioCodec
            "Audio codec not in preferred or acceptable list" (audio_codec m)
            ("Preferred: " ++ join ", " (audio_preferred_codecs std)
             ++ " | Acceptable: " ++ join ", " (audio_acceptable_codecs std)))
         15 (Some "Convert audio to PCM or ALAC for highest quality") st
  else if vec_contains (audio_acceptable_codecs std) (audio_codec m) then
    emit (mkViolation Info AudioCodec "Audio codec is acceptable but not preferred"
            (audio_codec m) ("Preferred: " ++ join ", " (audio_preferred_codecs std)))
         5 None st
  else st.

Definition hdr_violation_of : ComplianceViolation :=
  mkViolation Critical HDR "HDR content not supported by delivery pipeline"
    (color_space m) "Rec. 709 (SDR)".

Definition unsupported_violation_of : ComplianceViolation :=
  mkViolation Critical HDR "Color space not supported by delivery pipeline"
    (color_space m) "Rec. 709 (SDR)".

(** [for restricted in &hdr_restrictions { if ... { ...; hdr_violation = true; break; } }]:
    returns the state and the final value of [hdr_violation]. *)
Fixpoint hdr_scan (l : list string) (st : EngineState) : EngineState * bool :=
  match l with
  | [] => (st, false)
  | restricted :: l' =>
      if contains (to_lowercase (color_space m)) (to_lowercase restricted) then
        (emit hdr_violation_of 30 (Some "Convert to SDR (Rec. 709) color space") st, true)
      else hdr_scan l' st
  end.

(** [for unsupported in &unsupported_color_spaces { if ... { ...; break; } }] *)
Fixpoint unsupported_scan (l : list string) (st : EngineState) : EngineState :=
  match l with
  | [] => st
  | unsupported :: l' =>
      if contains (to_lowercase (color_space m)) (to_lowercase unsupported) then
        emit unsupported_violation_of 25 (Some "Convert to SDR (Rec. 709) color space") st
      else unsupported_scan l' st
  end.

Definition check_color (st : EngineState) : EngineState :=
  let '(st', hdr_violation) := hdr_scan (hdr_restrictions std) st in
  if negb hdr_violation then unsupported_scan (unsupported_color_spaces std) st'
  else st'.

Definition is_info (v : ComplianceViolation) : bool :=
  match severity v with Info => true | _ => false end.

Definition analyze_compliance : ComplianceResult :=
  let st := check_color (check_audio (check_container
              (check_resolution (check_codec init_state)))) in
  let is_compliant := forallb is_info (st_violations st) in
  mkResult is_compliant (st_score st) (st_violations st) (st_recommendations st).

End Engine.

(** ** detect_content_type

    [filename] is [path.file_name().unwrap().to_str().unwrap()], the
    display name of the asset (before lowercasing). *)

Inductive ContentType := ScreenCapture | LiveAction | Animation | Presentation | Unknown.

Definition detect_content_type (m : VideoMetadata) (file_name : string) : ContentType :=
  let filename := to_lowercase file_name in
  if contains filename "screen" || contains filename "capture"
     || contains filename "recording" then ScreenCapture
  else if contains filename "presentation" || contains filename "slide"
     || contains filename "demo" then Presentation
  else if contains filename "cartoon" || contains filename "animated"
     || contains filename "anime" then Animation
  else if Qlt_bool 50 (fps m) then LiveAction
  else if Qlt_bool (fps m) 20 then ScreenCapture
  else if contains (resolution m) "1920x1080" && Qle_bool 24 (fps m)
          && Qle_bool (fps m) 30 then LiveAction
  else ScreenCapture.

(** The classifier as the spec's ordered cascade: a list of
    (guard, content type) rules, the first rule whose guard holds wins,
    [ScreenCapture] otherwise. [cascade_rules_spec] follows the wording
    of the spec, rule 6 with resolution exactly [1920x1080];
    [cascade_rules] has the keywords matched on the lowercased name and
    rule 6 matched by substring. *)
Fixpoint first_match (rules : list ((unit -> bool) * ContentType)) (default : ContentType)
    : ContentType :=
  match rules with
  | [] => default
  | (guard, ct) :: rules' => if guard tt then ct else first_match rules' default
  end.

Definition any_keyword (name : string) (kws : list string) : bool :=
  existsb (contains name) kws.

Definition cascade_from (name : string) (res_rule : VideoMetadata -> bool)
    (m : VideoMetadata) : list ((unit -> bool) * ContentType) :=
  [ (fun _ => any_keyword name ["screen"; "capture"; "recording"], ScreenCapture);
    (fun _ => any_keyword name ["presentation"; "slide"; "demo"], Presentation);
    (fun _ => any_keyword name ["cartoon"; "animated"; "anime"], Animation);
    (fun _ => Qlt_bool 50 (fps m), LiveAction);
    (fun _ => Qlt_bool (fps m) 20, ScreenCapture);
    (fun _ => res_rule m && Qle_bool 24 (fps m) && Qle_bool (fps m) 30, LiveAction) ].

Definition classify_spec (m : VideoMetadata) (display_name : string) : ContentType :=
  first_match (cascade_from display_name
                 (fun m => String.eqb (resolution m) "1920x1080") m) ScreenCapture.

Definition classify_cascade (m : VideoMetadata) (display_name : string) : ContentType :=
  first_match (cascade_from (to_lowercase display_name)
                 (fun m => contains (resolution m) "1920x1080") m) ScreenCapture.

(** ** Remediation planner *)

Definition any_category (p : ViolationCategory -> bool) (r : ComplianceResult) : bool :=
  existsb (fun v => p (category v)) (violations r).

(** [determine_target_resolution] *)
Fixpoint target_resolution_scan (vs : list ComplianceViolation) : option string :=
  match vs with
  | [] => None
  | v :: vs' =>
      if category_eqb (category v) Resolution then
        if contains (expected_value v) "1920x1080" then Some "1920:1080"
        else if contains (expected_value v) "1280x720" then Some "1280:720"
        else target_resolution_scan vs'
      else target_resolution_scan vs'
  end.

Definition determine_target_resolution (r : ComplianceResult) : option string :=
  match target_resolution_scan (violations r) with
  | Some res => Some res
  | None => Some "1920:1080"
  end.

Definition scale_args (r : ComplianceResult) : list string :=
  match determine_target_resolution r with
  | Some res => ["-vf"; "scale=" ++ res]
  | None => []
  end.

Definition color_args : list string :=
  ["-colorspace"; "bt709"; "-color_primaries"; "bt709"; "-color_trc"; "bt709"].

(** [generate_video_fixes] (the path of [fix_video_compliance]) *)
Definition generate_video_fixes (r : ComplianceResult) : list string :=
  let needs_codec_fix := any_category (fun c => category_eqb c VideoCodec) r in
  let needs_resolution_fix := any_category (fun c => category_eqb c Resolution) r in
  let needs_quality_fix :=
    any_category (fun c => category_eqb c ColorSpace || category_eqb c HDR) r in
  if needs_codec_fix || needs_resolution_fix || needs_quality_fix then
    ["-c:v"; "h264_nvenc"; "-preset"; "p7"; "-cq"; "18"; "-profile:v"; "high";
     "-pix_fmt"; "yuv420p"]
    ++ (if needs_resolution_fix then scale_args r else [])
    ++ (if needs_quality_fix then color_args else [])
  else ["-c:v"; "copy"].

Definition content_tuning (ct : ContentType) : list string :=
  match ct with
  | ScreenCapture | Presentation =>
      ["-preset"; "p7"; "-cq"; "15"; "-temporal-aq"; "1"; "-rc-lookahead"; "32"]
  | LiveAction =>
      ["-preset"; "p5"; "-cq"; "18"; "-spatial-aq"; "1"; "-temporal-aq"; "1"]
  | Animation => ["-preset"; "p6"; "-cq"; "16"; "-aq-mode"; "3"]
  | Unknown => ["-preset"; "p6"; "-cq"; "18"]
  end.

(** [generate_optimized_video_fixes] (the content-aware path of
    [fix_video_compliance_optimized]); the metadata argument is unused. *)
Definition generate_optimized_video_fixes (r : ComplianceResult) (ct : ContentType)
    (_m : VideoMetadata) : list string :=
  let needs_video_fix := any_category (fun c =>
    category_eqb c VideoCodec || category_eqb c Resolution
    || category_eqb c ColorSpace || category_eqb c HDR) r in
  if needs_video_fix then
    ["-c:v"; "h264_nvenc"; "-profile:v"; "high"; "-pix_fmt"; "yuv420p"]
    ++ content_tuning ct
    ++ (if any_category (fun c => category_eqb c Resolution) r then scale_args r else [])
    ++ (if any_category (fun c => category_eqb c ColorSpace || category_eqb c HDR) r
        then color_args else [])
  else ["-c:v"; "copy"].

(** ** ComplianceSummary (the aggregator) *)

Record ComplianceSummary := mkSummary {
  total_files : nat;
  compliant_files : nat;
  non_compliant_files : nat;
  average_score : Q;  (* f64 *)
  critical_violations : nat;
  warning_violations : nat;
  info_violations : nat;
  files_by_score : list (string * nat);
}.

(** [ComplianceSummary::new], i.e. [Default::default()] *)
Definition summary_new : ComplianceSummary := mkSummary 0 0 0 0 0 0 0 [].

Definition count_severity (s : ComplianceSummary) (v : ComplianceViolation)
    : ComplianceSummary :=
  match severity v with
  | Critical => mkSummary (total_files s) (compliant_files s) (non_compliant_files s)
      (average_score s) (S (critical_violations s)) (warning_violations s)
      (info_violations s) (files_by_score s)
  | Warning => mkSummary (total_files s) (compliant_files s) (non_compliant_files s)
      (average_score s) (critical_violations s) (S (warning_violations s))
      (info_violations s) (files_by_score s)
  | Info => mkSummary (total_files s) (compliant_files s) (non_compliant_files s)
      (average_score s) (critical_violations s) (warning_violations s)
      (S (info_violations s)) (files_by_score s)
  end.

(** [ComplianceSummary::add_result] *)
Definition add_result (s : ComplianceSummary) (r : ComplianceResult) (filename : string)
    : ComplianceSummary :=
  let total := S (total_files s) in
  let avg := fdiv (fadd (fmul (average_score s) (f64_of_nat (total - 1)))
                        (f64_of_nat (score r)))
                  (f64_of_nat total) in
  let s1 := mkSummary total
              (if is_compliant r then S (compliant_files s) else compliant_files s)
              (if is_compliant r then non_compliant_files s else S (non_compliant_files s))
              avg (critical_violations s) (warning_violations s) (info_violations s)
              (files_by_score s ++ [(filename, score r)]) in
  fold_left count_severity (violations r) s1.

(** ** BatchProcessor *)

(** [Result<Option<PathBuf>, VideoError>], paths and error messages as strings. *)
Inductive FileResult := OkSome (fixed_path : string) | OkNone | Err (e : string).

Record BatchProcessor := mkBatch {
  bp_total_files : nat;
  processed_files : nat;
  failed_files : list (string * string);
  fixed_files : list string;
  skipped_files : list string;
}.

(** [BatchProcessor::new] *)
Definition batch_new (total : nat) : BatchProcessor := mkBatch total 0 [] [] [].

(** [BatchProcessor::process_file_result] *)
Definition process_file_result (b : BatchProcessor) (path : string) (result : FileResult)
    : BatchProcessor :=
  let processed := S (processed_files b) in
  match result with
  | OkSome fixed_path =>
      mkBatch (bp_total_files b) processed (failed_files b)
        (fixed_files b ++ [fixed_path]) (skipped_files b)
  | OkNone =>
      mkBatch (bp_total_files b) processed (failed_files b)
        (fixed_files b) (skipped_files b ++ [path])
  | Err e =>
      mkBatch (bp_total_files b) processed (failed_files b ++ [(path, e)])
        (fixed_files b) (skipped_files b)
  end.

(** A run of the batch loop: the results of the processed paths in order. *)
Definition run_batch (total : nat) (rs : list (string * FileResult)) : BatchProcessor :=
  fold_left (fun b pr => process_file_result b (fst pr) (snd pr)) rs (batch_new total).

(** ** format_duration *)

(** [(seconds * 100.0).trunc() as u32]: a saturating cast, so a
    non-positive product gives 0 and a large one [u32::MAX]. *)
Definition total_centisecs (seconds : Q) : Z :=
  let x := fmul seconds 100 in
  if Qle_bool x 0 then 0%Z else Z.min (Qfloor x) (2 ^ 32 - 1)%Z.

Definition decimal_string (n : Z) : string :=
  NilEmpty.string_of_uint (N.to_uint (Z.to_N n)).

(** [format!("{:02}", n)] *)
Definition pad2 (n : Z) : string :=
  let s := decimal_string n in
  if (String.length s <? 2)%nat then "0" ++ s else s.

Definition format_duration (seconds : Q) : string :=
  let c := total_centisecs seconds in
  let hours := (c / 360000)%Z in
  let minutes := ((c mod 360000) / 6000)%Z in
  let secs := ((c mod 6000) / 100)%Z in
  let centisecs := (c mod 100)%Z in
  pad2 hours ++ ":" ++ pad2 minutes ++ ":" ++ pad2 secs ++ "." ++ pad2 centisecs.

(** ** Further planner helpers *)

(** [generate_audio_fixes] *)
Definition generate_audio_fixes (r : ComplianceResult) : list string :=
  let needs_audio_fix :=
    any_category (fun c => category_eqb c Audio || category_eqb c AudioCodec) r in
  if needs_audio_fix then ["-c:a"; "pcm_s24le"; "-ar"; "48000"; "-ac"; "2"]
  else ["-c:a"; "copy"].

(** [should_use_hw_decode] *)
Definition should_use_hw_decode (r : ComplianceResult) : bool :=
  (2 <? List.length (violations r))%nat
  || any_category (fun c => category_eqb c Resolution || category_eqb c ColorSpace
                            || category_eqb c HDR) r.

(** [get_optimal_bitrate] (kbps) *)
Definition get_optimal_bitrate (ct : ContentType) (res : string) : N :=
  (match ct with
  | ScreenCapture | Presentation =>
      if contains res "1920x1080" then 6000
      else if contains res "1280x720" then 4000 else 3000
  | LiveAction =>
      if contains res "1920x1080" then 12000
      else if contains res "1280x720" then 8000 else 5000
  | Animation =>
      if contains res "1920x1080" then 8000
      else if contains res "1280x720" then 6000 else 4000
  | Unknown =>
      if contains res "1920x1080" then 8000
      else if contains res "1280x720" then 6000 else 4000
  end)%N.

(** ** File names as [std::path::Path] splits them *)

(** Splits at the last ['.']: the text before it and after it. *)
Fixpoint split_last_dot (s : string) : option (string * string) :=
  match s with
  | EmptyString => None
  | String c s' =>
      match split_last_dot s' with
      | Some (b, a) => Some (String c b, a)
      | None => if Ascii.eqb c "." then Some (EmptyString, s') else None
      end
  end.

(** [rsplit_file_at_dot] of the standard library: (before, after). *)
Definition rsplit_file_at_dot (file : string) : option string * option string :=
  if String.eqb file ".." then (Some file, None) else
  match split_last_dot file with
  | None => (None, Some file)
  | Some (before, after) =>
      if String.eqb before "" then (Some file, None) else (Some before, Some after)
  end.

(** [Path::file_stem] and [Path::extension] of a path whose last
    component is [file]. *)
Definition file_stem (file : string) : option string :=
  let '(before, after) := rsplit_file_at_dot file in
  match before with Some b => Some b | None => after end.

Definition extension (file : string) : option string :=
  let '(before, after) := rsplit_file_at_dot file in
  match before with Some _ => after | None => None end.

Definition option_default (o : option string) : string :=
  match o with Some s => s | None => "" end.

(** [generate_compliance_output_filename] for an input whose file name
    is [file] ([file_stem().unwrap()] is [file] itself when there is no
    stem, which a file name always has). *)
Definition generate_compliance_output_filename (file : string) (r : ComplianceResult)
    : string :=
  let stem := match file_stem file with Some s => s | None => file end in
  let ext := option_default (extension file) in
  let suffix :=
    ".compliant"
    ++ (if any_category (fun c => category_eqb c Resolution) r then ".scaled" else "")
    ++ (if any_category (fun c => category_eqb c VideoCodec) r then ".h264" else "")
    ++ (if any_category (fun c => category_eqb c Audio || category_eqb c AudioCodec) r
        then ".aac" else "")
    ++ (if any_category (fun c => category_eqb c ColorSpace || category_eqb c HDR) r
        then ".rec709" else "") in
  stem ++ suffix ++ "." ++ (if String.eqb ext "" then "mp4" else ext).

(** [validate_directory], the directory given by its displayed path,
    whether it is one, and what [std::fs::read_dir] gives: an I/O error
    (its message) or the listing, each entry either its file name or a
    per-entry error ([None]), in listing order. The variants of
    [VideoError] the function can return are modelled. *)
Inductive VideoError := Io (e : string) | InvalidPath (msg : string) | NoVideosFound.

Definition is_video_entry (file : string) : bool :=
  match extension file with
  | Some ext => String.eqb ext "mp4" || String.eqb ext "avi"
  | None => false
  end.

(** [.filter_map(Result::ok)] *)
Fixpoint ok_entries (l : list (option string)) : list string :=
  match l with
  | [] => []
  | Some f :: l' => f :: ok_entries l'
  | None :: l' => ok_entries l'
  end.

Definition validate_directory (dir : string) (is_dir : bool)
    (read_dir : list (option string) + string) : list string + VideoError :=
  if negb is_dir then inr (InvalidPath ("Not a directory: " ++ dir)) else
  match read_dir with
  | inr e => inr (Io e)
  | inl listing =>
    let entries := filter is_video_entry (ok_entries listing) in
    match entries with
    | [] => inr NoVideosFound
    | _ => inl entries
    end
  end.

(** ** ProcessingSummary *)

(** [HashMap<String, usize>] as an association list;
    [*map.entry(k).or_insert(0) += 1]. *)
Fixpoint map_incr (k : string) (l : list (string * nat)) : list (string * nat) :=
  match l with
  | [] => [(k, 1%nat)]
  | (k', n) :: l' => if String.eqb k k' then (k', S n) :: l' else (k', n) :: map_incr k l'
  end.

Record ProcessingSummary := mkProcessing {
  total_videos : nat;
  total_size : Z;      (* u64 *)
  total_duration : Q;  (* f64 *)
  codecs : list (string * nat);
  audio_codecs : list (string * nat);
  resolutions : list (string * nat);
}.

Definition processing_new : ProcessingSummary := mkProcessing 0 0 0 [] [] [].

(** [ProcessingSummary::add_video]; [size] is the [size] field of the
    probed [VideoMetadata] (u64, added with release-build wrap-around). *)
Definition add_video (p : ProcessingSummary) (m : VideoMetadata) (size : Z)
    : ProcessingSummary :=
  mkProcessing (S (total_videos p)) ((total_size p + size) mod 2 ^ 64)%Z
    (fadd (total_duration p) (duration m))
    (map_incr (codec m) (codecs p))
    (map_incr (audio_codec m) (audio_codecs p))
    (map_incr (resolution m) (resolutions p)).

Fixpoint sum_counts (l : list (string * nat)) : nat :=
  match l with [] => 0%nat | (_, n) :: l' => (n + sum_counts l')%nat end.

(** ** parse_time

    [parse_f64] is [str::parse::<f64>], left abstract: every property
    below holds whatever it accepts. *)

Fixpoint string_drop (n : nat) (s : string) : string :=
  match n, s with
  | O, _ => s
  | S n', String _ s' => string_drop n' s'
  | S _, EmptyString => EmptyString
  end.

(** The text after the first occurrence of [pat]. *)
Fixpoint after_first (pat s : string) : option string :=
  if starts_with pat s then Some (string_drop (String.length pat) s) else
  match s with
  | EmptyString => None
  | String _ s' => after_first pat s'
  end.

(** The text before the first occurrence of [pat] (all of [s] if none). *)
Fixpoint until_next (pat s : string) : string :=
  if starts_with pat s then EmptyString else
  match s with
  | EmptyString => EmptyString
  | String c s' => String c (until_next pat s')
  end.

(** [line.split(pat).collect::<Vec<_>>()[1]], when [parts.len() > 1]. *)
Definition split_second (pat line : string) : option string :=
  match after_first pat line with
  | Some rest => Some (until_next pat rest)
  | None => None
  end.

(** [char::is_whitespace] on ASCII. *)
Definition is_whitespace (c : ascii) : bool :=
  let n := nat_of_ascii c in (n =? 32)%nat || ((9 <=? n)%nat && (n <=? 13)%nat).

Fixpoint take_word (s : string) : string :=
  match s with
  | String c s' => if is_whitespace c then EmptyString else String c (take_word s')
  | EmptyString => EmptyString
  end.

(** [s.split_whitespace().next()] *)
Fixpoint first_word (s : string) : option string :=
  match s with
  | EmptyString => None
  | String c s' => if is_whitespace c then first_word s' else Some (take_word s)
  end.

(** [s.split(sep).collect::<Vec<_>>()] *)
Fixpoint split_char (sep : ascii) (s : string) : list string :=
  match s with
  | EmptyString => [EmptyString]
  | String c s' =>
      let parts := split_char sep s' in
      if Ascii.eqb c sep then EmptyString :: parts else
      match parts with
      | p :: ps => String c p :: ps
      | [] => [String c EmptyString]
      end
  end.

Section ParseTime.
Variable parse_f64 : string -> option Q.

Definition parse_time (line : string) : option Q :=
  if contains line "time=" then
    match split_second "time=" line with
    | Some part1 =>
        match first_word part1 with
        | None => None
        | Some time_str =>
            match split_char ":" time_str with
            | [hs; ms; ss] =>
                match parse_f64 hs, parse_f64 ms, parse_f64 ss with
                | Some h, Some m, Some s => Some (fadd (fadd (fmul h 3600) (fmul m 60)) s)
                | _, _, _ => None
                end
            | _ => None
            end
        end
    | None => None
    end
  else None.
End ParseTime.

(** ** process_single_file_batch

    [analyze_video] (the probe) and [fix_video_compliance_optimized] (the
    transcode) are left abstract; errors are carried as their
    [to_string] text, as [process_file_result] stores them. *)
Section SingleFile.
Variable probe : string -> VideoMetadata + string.
Variable transcode : string -> ComplianceResult -> VideoMetadata -> string + string.
Variable engine : ContentStandards.

Definition process_single_file_batch (path : string) : option string + string :=
  match probe path with
  | inr e => inr e
  | inl metadata =>
      let compliance_result := analyze_compliance engine metadata in
      if is_compliant compliance_result then inl None else
      match transcode path compliance_result metadata with
      | inr e => inr e
      | inl fixed_path => inl (Some fixed_path)
      end
  end.

(** The result as [process_file_result] receives it. *)
Definition to_file_result (r : option string + string) : FileResult :=
  match r with
  | inl (Some p) => OkSome p
  | inl None => OkNone
  | inr e => Err e
  end.
End SingleFile.

(** ** Runs of the aggregators and helpers for stating properties *)

(** [process_directory]'s loop feeding [ComplianceSummary::add_result]. *)
Definition run_summary (rs : list (ComplianceResult * string)) : ComplianceSummary :=
  fold_left (fun s rn => add_result s (fst rn) (snd rn)) rs summary_new.

(** [process_directory]'s loop feeding [ProcessingSummary::add_video]. *)
Definition run_processing (ms : list (VideoMetadata * Z)) : ProcessingSummary :=
  fold_left (fun p ms => add_video p (fst ms) (snd ms)) ms processing_new.

(** The count a distribution map holds for [k] ([map.get(k)], 0 if absent). *)
Fixpoint lookup_count (k : string) (l : list (string * nat)) : nat :=
  match l with
  | [] => 0%nat
  | (k', n) :: l' => if String.eqb k k' then n else lookup_count k l'
  end.

Definition severity_eqb (a b : ViolationSeverity) : bool :=
  match a, b with
  | Critical, Critical | Warning, Warning | Info, Info => true
  | _, _ => false
  end.

Fixpoint all_chars (f : ascii -> bool) (s : string) : bool :=
  match s with
  | EmptyString => true
  | String c s' => f c && all_chars f s'
  end.

(** Unsigned decimal literals [digits] or [digits.digits], read as the
    nearest binary64 value; [str::parse::<f64>] reads these the same
    way (it accepts more forms, such as exponents, which this does not). *)
Fixpoint digits_value (s : string) (acc : Z) (len : nat) : option (Z * nat) :=
  match s with
  | EmptyString => Some (acc, len)
  | String c s' =>
      let n := nat_of_ascii c in
      if (48 <=? n)%nat && (n <=? 57)%nat
      then digits_value s' (acc * 10 + Z.of_nat (n - 48))%Z (S len)
      else None
  end.

Definition parse_simple_decimal (s : string) : option Q :=
  match split_char "." s with
  | [ip] =>
      match digits_value ip 0 0 with
      | Some (v, S _) => Some (f64_lit v 1)
      | _ => None
      end
  | [ip; fp] =>
      match digits_value ip 0 0, digits_value fp 0 0 with
      | Some (v, S _), Some (f, S k) =>
          Some (f64_lit (v * 10 ^ Z.of_nat (S k) + f) (Pos.of_nat (10 ^ S k)))
      | _, _ => None
      end
  | _ => None
  end.

(** ** The engine's rules seen through severity, category, score and
    number of recommendations

    [abs_*] replay the rules of [analyze_compliance] on that summary,
    each driven by the membership tests the rule makes. *)

Definition sc_of (v : ComplianceViolation) : ViolationSeverity * ViolationCategory :=
  (severity v, category v).

Definition AbsState : Type := (list (ViolationSeverity * ViolationCategory) * nat * nat)%type.

Definition abs_of (st : EngineState) : AbsState :=
  (map sc_of (st_violations st), st_score st, List.length (st_recommendations st)).

Definition abs_emit (sc : ViolationSeverity * ViolationCategory) (d : nat) (rec : bool)
    (a : AbsState) : AbsState :=
  let '(vs, s, n) := a in ((vs ++ [sc])%list, (s - d)%nat, if rec then S n else n).

Definition abs_codec (preferred : bool) (a : AbsState) : AbsState :=
  if negb preferred then abs_emit (Critical, VideoCodec) 20 true a else a.

Definition abs_resolution (preferred acceptable : bool) (a : AbsState) : AbsState :=
  if negb preferred && negb acceptable then abs_emit (Critical, Resolution) 25 true a
  else if negb preferred then abs_emit (Warning, Resolution) 10 false a
  else a.

Definition abs_container (unsupported : bool) (a : AbsState) : AbsState :=
  if unsupported then abs_emit (Critical, Container) 15 true a else a.

Definition abs_audio (preferred acceptable : bool) (a : AbsState) : AbsState :=
  if negb preferred && negb acceptable then abs_emit (Warning, AudioCodec) 15 true a
  else if acceptable then abs_emit (Info, AudioCodec) 5 false a
  else a.

Definition abs_color (hdr unsupported : bool) (a : AbsState) : AbsState :=
  if hdr then abs_emit (Critical, HDR) 30 true a
  else if unsupported then abs_emit (Critical, HDR) 25 true a
  else a.

Definition abs_analyze (bc brp bra bcont bap baa bh bu : bool) : AbsState :=
  abs_color bh bu (abs_audio bap baa (abs_container bcont
    (abs_resolution brp bra (abs_codec bc ([], 100%nat, 0%nat))))).

(** ** The ffmpeg commands

    The argument vectors [fix_video_compliance] and
    [fix_video_compliance_optimized] build before running ffmpeg; [input]
    and [output] are the displayed input and output paths. *)
Definition compliance_ffmpeg_args (input output : string) (r : ComplianceResult)
    : list string :=
  (["-i"; input]
   ++ (if should_use_hw_decode r then ["-hwaccel"; "cuda"] else [])
   ++ generate_video_fixes r
   ++ generate_audio_fixes r
   ++ ["-movflags"; "+faststart"]
   ++ ["-y"; output])%list.

Definition optimized_ffmpeg_args (input output : string) (r : ComplianceResult)
    (ct : ContentType) (m : VideoMetadata) : list string :=
  (["-i"; input]
   ++ (if should_use_hw_decode r then ["-hwaccel"; "cuda"] else [])
   ++ generate_optimized_video_fixes r ct m
   ++ generate_audio_fixes r
   ++ ["-movflags"; "+faststart"; "-y"; output])%list.

(** ** Predicates used in the statements below *)

(** Every violation recorded in an engine state satisfies [Q]. *)
Definition viol_inv (Q : ComplianceViolation -> Prop) (st : EngineState) : Prop :=
  forall v, In v (st_violations st) -> Q v.

Definition no_ws (s : string) : bool := all_chars (fun c => negb (is_whitespace c)) s.

(** Empty, or starting with whitespace. *)
Definition ws_led (t : string) : Prop :=
  t = EmptyString \/ exists c t', t = String c t' /\ is_whitespace c = true.

Definition no_char (sep : ascii) (s : string) : bool :=
  all_chars (fun c => negb (Ascii.eqb c sep)) s.

(** A field of [HH:MM:SS]: no whitespace and no colon. *)
Definition time_field (s : string) : bool :=
  all_chars (fun c => negb (is_whitespace c) && negb (Ascii.eqb c ":")) s.

(** How many of the probed files carry the value [k] in field [f]. *)
Definition count_key (f : VideoMetadata -> string) (k : string)
    (ms : list (VideoMetadata * Z)) : nat :=
  List.length (filter (fun x => String.eqb k (f (fst x))) ms).

(** * Properties *)

Open Scope nat_scope.

(** ** Engine: scores and categories *)

Lemma emit_score_le v d r st : st_score (emit v d r st) <= st_score st.
Proof. unfold emit; simpl; lia. Qed.

Lemma hdr_scan_score_le m l st : st_score (fst (hdr_scan m l st)) <= st_score st.
Proof.
  induction l as [|h l IH]; simpl; [lia|].
  destruct (contains _ _); simpl; [unfold emit; simpl; lia | exact IH].
Qed.

Lemma unsupported_scan_score_le m l st :
  st_score (unsupported_scan m l st) <= st_score st.
Proof.
  induction l as [|h l IH]; simpl; [lia|].
  destruct (contains _ _); [unfold emit; simpl; lia | exact IH].
Qed.

Ltac step_le :=
  repeat match goal with
  | |- context [if ?c then _ else _] => destruct c
  end; simpl; try apply emit_score_le; try lia.

Lemma check_steps_score_le std m st :
  st_score (check_codec std m st) <= st_score st /\
  st_score (check_resolution std m st) <= st_score st /\
  st_score (check_container std m st) <= st_score st /\
  st_score (check_audio std m st) <= st_score st /\
  st_score (check_color std m st) <= st_score st.
Proof.
  unfold check_codec, check_resolution, check_container, check_audio, check_color.
  repeat split; step_le.
  pose proof (hdr_scan_score_le m (hdr_restrictions std) st) as H.
  destruct (hdr_scan m (hdr_restrictions std) st) as [st' b]; simpl in H.
  destruct b; simpl; [lia|].
  pose proof (unsupported_scan_score_le m (unsupported_color_spaces std) st'); lia.
Qed.

(** C1: whatever the metadata (and whatever the catalog), the score of
    [analyze_compliance] lies in [0, 100]: it starts at 100 and every
    deduction is a saturating subtraction. *)
Theorem analyze_compliance_score_bounded (std : ContentStandards) (m : VideoMetadata) :
  0 <= score (analyze_compliance std m) <= 100.
Proof.
  unfold analyze_compliance; simpl.
  set (s0 := init_state).
  destruct (check_steps_score_le std m s0) as [H1 _].
  destruct (check_steps_score_le std m (check_codec std m s0)) as [_ [H2 _]].
  destruct (check_steps_score_le std m (check_resolution std m (check_codec std m s0)))
    as [_ [_ [H3 _]]].
  destruct (check_steps_score_le std m (check_container std m
             (check_resolution std m (check_codec std m s0)))) as [_ [_ [_ [H4 _]]]].
  destruct (check_steps_score_le std m (check_audio std m (check_container std m
             (check_resolution std m (check_codec std m s0))))) as [_ [_ [_ [_ H5]]]].
  simpl in *; lia.
Qed.

(** C2: [is_compliant] is true exactly when every violation of the
    result has severity [Info]. *)
Theorem analyze_compliance_is_compliant_iff (std : ContentStandards) (m : VideoMetadata) :
  is_compliant (analyze_compliance std m) = true <->
  (forall v, In v (violations (analyze_compliance std m)) -> severity v = Info).
Proof.
  unfold analyze_compliance; simpl.
  rewrite forallb_forall.
  split; intros H v Hv; specialize (H v Hv); unfold is_info in *;
    destruct (severity v); congruence.
Qed.

Section Categories.
Variable P : ViolationCategory -> bool.

Definition cats_ok (st : EngineState) : Prop :=
  forall v, In v (st_violations st) -> P (category v) = true.

Lemma cats_ok_init : cats_ok init_state.
Proof. intros v []. Qed.

Lemma cats_ok_emit v d r st :
  P (category v) = true -> cats_ok st -> cats_ok (emit v d r st).
Proof.
  intros Hv Hst w Hw; simpl in Hw.
  apply in_app_or in Hw as [Hw | [<- | []]]; auto.
Qed.

Lemma cats_ok_hdr_scan m l st :
  P HDR = true -> cats_ok st -> cats_ok (fst (hdr_scan m l st)).
Proof.
  intros HP Hst; induction l as [|h l IH]; simpl; auto.
  destruct (contains _ _); simpl; auto.
  apply cats_ok_emit; auto.
Qed.

Lemma cats_ok_unsupported_scan m l st :
  P HDR = true -> cats_ok st -> cats_ok (unsupported_scan m l st).
Proof.
  intros HP Hst; induction l as [|h l IH]; simpl; auto.
  destruct (contains _ _); auto.
  apply cats_ok_emit; auto.
Qed.

Ltac emit_ok :=
  repeat match goal with
  | |- context [if ?c then _ else _] => destruct c
  end; try assumption; apply cats_ok_emit; auto.

Lemma cats_ok_first_four std m st :
  P VideoCodec = true -> P Resolution = true -> P Container = true ->
  P AudioCodec = true -> cats_ok st ->
  cats_ok (check_audio std m (check_container std m
             (check_resolution std m (check_codec std m st)))).
Proof.
  intros H1 H2 H3 H4 Hst.
  assert (A : cats_ok (check_codec std m st)) by (unfold check_codec; emit_ok).
  assert (B : cats_ok (check_resolution std m (check_codec std m st)))
    by (unfold check_resolution; emit_ok).
  assert (C : cats_ok (check_container std m (check_resolution std m (check_codec std m st))))
    by (unfold check_container; emit_ok).
  unfold check_audio; emit_ok.
Qed.

Lemma cats_ok_check_color std m st :
  P HDR = true -> cats_ok st -> cats_ok (check_color std m st).
Proof.
  intros HP Hst; unfold check_color.
  pose proof (cats_ok_hdr_scan m (hdr_restrictions std) st HP Hst) as H.
  destruct (hdr_scan m (hdr_restrictions std) st) as [st' []]; simpl in *; auto.
  apply cats_ok_unsupported_scan; auto.
Qed.

End Categories.

Definition engine_category (c : ViolationCategory) : bool :=
  match c with
  | VideoCodec | Resolution | Container | AudioCodec | HDR => true
  | _ => false
  end.

(** C8: every violation produced by [analyze_compliance] has category
    [VideoCodec], [Resolution], [Container], [AudioCodec] or [HDR]; in
    particular never [ColorSpace] (both color-space branches tag [HDR]). *)
Theorem analyze_compliance_categories (std : ContentStandards) (m : VideoMetadata) :
  forall v, In v (violations (analyze_compliance std m)) ->
    In (category v) [VideoCodec; Resolution; Container; AudioCodec; HDR] /\
    category v <> ColorSpace.
Proof.
  intros v Hv.
  assert (H : cats_ok engine_category (check_color std m (check_audio std m
                (check_container std m (check_resolution std m
                  (check_codec std m init_state))))))
    by (apply cats_ok_check_color; [reflexivity|];
        apply cats_ok_first_four; try reflexivity; apply cats_ok_init).
  specialize (H v Hv); unfold engine_category in H.
  destruct (category v); try discriminate H; simpl; split;
    solve [tauto | discriminate].
Qed.

(** A bt2020 asset with an MPEG-4 codec: its color-space violation is
    tagged [HDR]. *)
Lemma analyze_compliance_categories_witness :
  let m := mkMetadata "mpeg4" "1920x1080" 0 25 "pcm" "mp4" "bt2020" in
  In (unsupported_violation_of m) (violations (analyze_compliance load_default m)) /\
  In (category (unsupported_violation_of m))
     [VideoCodec; Resolution; Container; AudioCodec; HDR] /\
  category (unsupported_violation_of m) <> ColorSpace.
Proof.
  intros m.
  assert (Hin : In (unsupported_violation_of m)
                  (violations (analyze_compliance load_default m)))
    by (vm_compute; right; left; reflexivity).
  split; [exact Hin |].
  exact (analyze_compliance_categories load_default m _ Hin).
Defined.

(** ** Engine: the color-space short-circuit *)

Definition color_matches (m : VideoMetadata) (term : string) : bool :=
  contains (to_lowercase (color_space m)) (to_lowercase term).

Definition sdr_recommendation : string := "Convert to SDR (Rec. 709) color space".

Lemma hdr_scan_hit m l st :
  existsb (color_matches m) l = true ->
  hdr_scan m l st = (emit (hdr_violation_of m) 30 (Some sdr_recommendation) st, true).
Proof.
  induction l as [|h l IH]; simpl; [discriminate|].
  unfold color_matches at 1.
  destruct (contains _ _); simpl; auto.
Qed.

Definition pre_color_category (c : ViolationCategory) : bool :=
  match c with
  | VideoCodec | Resolution | Container | AudioCodec => true
  | _ => false
  end.

Definition is_hdr (v : ComplianceViolation) : bool := category_eqb (category v) HDR.

Lemma filter_hdr_pre l :
  (forall v, In v l -> pre_color_category (category v) = true) ->
  filter is_hdr l = [].
Proof.
  induction l as [|v l IH]; intros H; simpl; auto.
  pose proof (H v (or_introl eq_refl)) as Hv.
  unfold is_hdr; destruct (category v); try discriminate Hv; simpl;
    apply IH; intros w Hw; apply H; right; exact Hw.
Qed.

(** C3: when the color space matches both an HDR-restriction term and
    an unsupported-color-space term (case-insensitive substring), the
    color-space check emits only the HDR-restriction violation with the
    30-point deduction, the result holds exactly one [HDR] violation, and
    the unsupported-color-space violation is never emitted. *)
Theorem hdr_short_circuit (std : ContentStandards) (m : VideoMetadata)
    (Hhdr : exists h, In h (hdr_restrictions std) /\ color_matches m h = true)
    (Hunsup : exists u, In u (unsupported_color_spaces std) /\ color_matches m u = true) :
  (forall st, check_color std m st =
                emit (hdr_violation_of m) 30 (Some sdr_recommendation) st) /\
  filter is_hdr (violations (analyze_compliance std m)) = [hdr_violation_of m] /\
  ~ In (unsupported_violation_of m) (violations (analyze_compliance std m)).
Proof.
  assert (Hex : existsb (color_matches m) (hdr_restrictions std) = true)
    by (apply existsb_exists; exact Hhdr).
  assert (Hcol : forall st, check_color std m st =
                   emit (hdr_violation_of m) 30 (Some sdr_recommendation) st)
    by (intros st; unfold check_color; rewrite (hdr_scan_hit m _ st Hex); reflexivity).
  set (pre := check_audio std m (check_container std m
                (check_resolution std m (check_codec std m init_state)))).
  assert (Hpre : cats_ok pre_color_category pre)
    by (apply cats_ok_first_four; try reflexivity; apply cats_ok_init).
  assert (Hviol : violations (analyze_compliance std m) =
                  (st_violations pre ++ [hdr_violation_of m])%list)
    by (unfold analyze_compliance; fold pre; rewrite Hcol; reflexivity).
  assert (Hf : filter is_hdr (violations (analyze_compliance std m)) = [hdr_violation_of m])
    by (rewrite Hviol, filter_app, (filter_hdr_pre _ Hpre); reflexivity).
  split; [exact Hcol | split; [exact Hf |]].
  intros Hin.
  assert (Hin' : In (unsupported_violation_of m)
                   (filter is_hdr (violations (analyze_compliance std m))))
    by (apply filter_In; split; [exact Hin | reflexivity]).
  rewrite Hf in Hin'; destruct Hin' as [Heq | []].
  unfold hdr_violation_of, unsupported_violation_of in Heq.
  injection Heq; discriminate.
Qed.

(** An HDR10 color space tagged with BT.2020 matches both default lists. *)
Lemma hdr_short_circuit_witness :
  let m := mkMetadata "h264" "1920x1080" 0 25 "pcm" "mp4" "hdr10_bt2020" in
  (exists h, In h (hdr_restrictions load_default) /\ color_matches m h = true) /\
  (exists u, In u (unsupported_color_spaces load_default) /\ color_matches m u = true) /\
  filter is_hdr (violations (analyze_compliance load_default m)) = [hdr_violation_of m].
Proof.
  intros m.
  assert (Hh : exists h, In h (hdr_restrictions load_default) /\ color_matches m h = true)
    by (exists "hdr10"; split; [simpl; tauto | vm_compute; reflexivity]).
  assert (Hu : exists u, In u (unsupported_color_spaces load_default) /\
                         color_matches m u = true)
    by (exists "bt2020"; split; [simpl; tauto | vm_compute; reflexivity]).
  split; [exact Hh | split; [exact Hu |]].
  exact (proj1 (proj2 (hdr_short_circuit load_default m Hh Hu))).
Defined.

(** ** Content classifier *)

(** C4 (as stated): the classifier is not the spec's cascade with rule 6
    on the resolution being exactly [1920x1080], nor with keywords
    matched on the name as given: a probe-produced resolution
    [11920x1080] at 25 fps is classified [LiveAction] (the string
    contains [1920x1080]), and an upper-case [SCREEN.mp4] at 60 fps is
    [ScreenCapture]. *)
Lemma detect_content_type_not_exact_cascade :
  ~ (forall m name, detect_content_type m name = classify_spec m name) /\
  detect_content_type (mkMetadata "h264" "1920x1080" 0 60 "aac" "mp4" "bt709") "SCREEN.mp4"
    = ScreenCapture /\
  classify_spec (mkMetadata "h264" "1920x1080" 0 60 "aac" "mp4" "bt709") "SCREEN.mp4"
    = LiveAction.
Proof.
  split; [|split; vm_compute; reflexivity].
  intros H.
  pose proof (H (mkMetadata "h264" "11920x1080" 0 25 "aac" "mp4" "bt709") "clip.mp4") as H1.
  vm_compute in H1; discriminate H1.
Qed.

(** C4 (amended): [detect_content_type] is the ordered first-match
    cascade over the lowercased file name: screen/capture/recording,
    then presentation/slide/demo, then cartoon/animated/anime, then
    fps > 50, then fps < 20, then a resolution string containing
    [1920x1080] with 24 <= fps <= 30, default [ScreenCapture]; in
    particular [screen_recording] at 60 fps is [ScreenCapture]. *)
Theorem detect_content_type_cascade :
  (forall m name, detect_content_type m name = classify_cascade m name) /\
  detect_content_type (mkMetadata "h264" "1920x1080" 0 60 "aac" "mp4" "bt709")
    "screen_recording.mp4" = ScreenCapture.
Proof.
  split; [|vm_compute; reflexivity].
  intros m name; unfold detect_content_type, classify_cascade, cascade_from; simpl.
  unfold any_keyword; simpl; rewrite !orb_false_r, !orb_assoc.
  reflexivity.
Qed.

(** C9: the classifier never answers [Unknown]. *)
Theorem detect_content_type_not_unknown (m : VideoMetadata) (name : string) :
  detect_content_type m name <> Unknown.
Proof.
  unfold detect_content_type.
  repeat match goal with
  | |- context [if ?c then _ else _] => destruct c
  end; discriminate.
Qed.

(** ** Remediation planner: re-encode or stream copy *)

Definition video_fix_category (c : ViolationCategory) : bool :=
  match c with
  | VideoCodec | Resolution | ColorSpace | HDR => true
  | _ => false
  end.

Lemma any_category_ext (p q : ViolationCategory -> bool) r :
  (forall c, p c = q c) -> any_category p r = any_category q r.
Proof.
  intros H; unfold any_category.
  induction (violations r) as [|v vs IH]; simpl; auto.
  rewrite H, IH; reflexivity.
Qed.

Lemma any_category_video_fix r :
  any_category video_fix_category r = true <->
  exists v, In v (violations r) /\
    In (category v) [VideoCodec; Resolution; ColorSpace; HDR].
Proof.
  unfold any_category; rewrite existsb_exists.
  split; intros [v [Hv Hc]]; exists v; split; auto;
    destruct (category v); simpl in *; intuition discriminate.
Qed.

Lemma any_category_orb p q r :
  any_category (fun c => p c || q c) r = any_category p r || any_category q r.
Proof.
  unfold any_category.
  induction (violations r) as [|v vs IH]; simpl; auto.
  rewrite IH.
  destruct (p (category v)), (q (category v)),
    (existsb (fun v => p (category v)) vs), (existsb (fun v => q (category v)) vs);
    reflexivity.
Qed.

(** C5: in the content-aware planner the video arguments start with the
    H.264 NVENC encoder followed by the content-tuned quality
    parameters exactly when some violation has category [VideoCodec],
    [Resolution], [ColorSpace] or [HDR], and are exactly [-c:v copy]
    otherwise; the legacy planner [generate_video_fixes] makes the same
    decision with its fixed quality parameters. *)
Theorem video_fixes_reencode_iff (r : ComplianceResult) (ct : ContentType)
    (m : VideoMetadata) :
  let needs := exists v, In v (violations r) /\
                 In (category v) [VideoCodec; Resolution; ColorSpace; HDR] in
  (needs <-> exists tail, generate_optimized_video_fixes r ct m =
       (["-c:v"; "h264_nvenc"; "-profile:v"; "high"; "-pix_fmt"; "yuv420p"]
        ++ content_tuning ct ++ tail)%list) /\
  (~ needs -> generate_optimized_video_fixes r ct m = ["-c:v"; "copy"]) /\
  (needs <-> exists tail, generate_video_fixes r =
       (["-c:v"; "h264_nvenc"; "-preset"; "p7"; "-cq"; "18"; "-profile:v"; "high";
         "-pix_fmt"; "yuv420p"] ++ tail)%list) /\
  (~ needs -> generate_video_fixes r = ["-c:v"; "copy"]).
Proof.
  intros needs.
  assert (Hopt : any_category (fun c => category_eqb c VideoCodec
                   || category_eqb c Resolution || category_eqb c ColorSpace
                   || category_eqb c HDR) r = any_category video_fix_category r)
    by (apply any_category_ext; intros []; reflexivity).
  assert (Hleg : any_category (fun c => category_eqb c VideoCodec) r
                 || any_category (fun c => category_eqb c Resolution) r
                 || any_category (fun c => category_eqb c ColorSpace
                                           || category_eqb c HDR) r
                 = any_category video_fix_category r).
  { rewrite <- !any_category_orb; apply any_category_ext; intros []; reflexivity. }
  pose proof (any_category_video_fix r) as Hiff; fold needs in Hiff.
  unfold generate_optimized_video_fixes, generate_video_fixes.
  rewrite Hopt; cbv zeta; rewrite Hleg.
  destruct (any_category video_fix_category r) eqn:E.
  - repeat split; try (intros; eexists; reflexivity);
      try (intros Hn; exfalso; apply Hn, Hiff; reflexivity);
      intros _; apply Hiff; reflexivity.
  - repeat split; try (intros; reflexivity);
      intros H; try (apply Hiff in H; discriminate);
      destruct H as [tail Ht]; discriminate Ht.
Qed.

(** ** Aggregator: the running mean *)

Lemma fold_count_severity_keeps vs s :
  total_files (fold_left count_severity vs s) = total_files s /\
  average_score (fold_left count_severity vs s) = average_score s.
Proof.
  revert s; induction vs as [|v vs IH]; intros s; simpl; auto.
  destruct (IH (count_severity s v)) as [H1 H2]; rewrite H1, H2.
  unfold count_severity; destruct (severity v); simpl; auto.
Qed.

Definition result_with_score (n : nat) : ComplianceResult := mkResult true n [] [].

(** C6: [add_result] counts the result and replaces the mean by
    [(mean * (n-1) + score) / n] computed in binary64, [n] the new count;
    from an empty summary, scores 100 then 60 give 80.0, and a third
    score 70 gives [(80*2+70)/3] (the binary64 quotient, within half an
    ulp of 230/3). *)
Theorem add_result_running_mean :
  (forall s r name,
     total_files (add_result s r name) = S (total_files s) /\
     average_score (add_result s r name) =
       fdiv (fadd (fmul (average_score s) (f64_of_nat (S (total_files s) - 1)))
                  (f64_of_nat (score r)))
            (f64_of_nat (S (total_files s)))) /\
  (let s2 := add_result (add_result summary_new (result_with_score 100) "a")
                        (result_with_score 60) "b" in
   let s3 := add_result s2 (result_with_score 70) "c" in
   average_score s2 == 80 /\
   average_score s3 == fdiv (fadd (fmul 80 2) 70) 3 /\
   Qabs (average_score s3 - (230 # 3)) <= (230 # 3) * (1 # 2 ^ 53))%Q.
Proof.
  split.
  - intros s r name; unfold add_result; cbv zeta.
    apply fold_count_severity_keeps.
  - cbv zeta; split; [|split]; vm_compute; try reflexivity; discriminate.
Qed.

(** ** format_duration *)

(** C7: [format_duration] truncates the binary64 product
    [seconds * 100.0] to whole centiseconds (saturating to [0] at or
    below zero and to [u32::MAX] only at or above it, otherwise the
    floor of the product) before splitting it into [HH:MM:SS.cc]; for the literal
    [59.999] the product exceeds 5999.5 yet the text is [00:00:59.99],
    not [00:01:00.00]. *)
Theorem format_duration_truncates :
  (forall seconds : Q,
     let x := fmul seconds 100 in
     let c := total_centisecs seconds in
     (0 <= c)%Z /\
     ((x <= 0 /\ c = 0%Z) \/ (inject_Z (2 ^ 32 - 1) <= x /\ c = (2 ^ 32 - 1)%Z) \/
      (inject_Z c <= x /\ x < inject_Z (c + 1)))%Q) /\
  format_duration (f64_lit 59999 1000) = "00:00:59.99" /\
  (5999 + 1 # 2 < fmul (f64_lit 59999 1000) 100)%Q.
Proof.
  split; [|split; [vm_compute; reflexivity | vm_compute; reflexivity]].
  intros seconds x c.
  unfold c, total_centisecs; fold x.
  destruct (Qle_bool x 0) eqn:Hx.
  - apply Qle_bool_iff in Hx; split; [lia | left; split; auto].
  - assert (Hpos : ~ (x <= 0)%Q) by (rewrite <- Qle_bool_iff; congruence).
    assert (Hf : (0 <= Qfloor x)%Z).
    { destruct (Z.le_gt_cases 0 (Qfloor x)) as [H | H]; auto.
      exfalso; apply Hpos.
      apply Qlt_le_weak, Qlt_le_trans with (inject_Z (Qfloor x + 1)); [apply Qlt_floor|].
      change 0%Q with (inject_Z 0); rewrite <- Zle_Qle; lia. }
    destruct (Z.le_ge_cases (Qfloor x) (2 ^ 32 - 1)) as [H | H].
    + rewrite Z.min_l by exact H.
      split; [exact Hf | right; right; split; [apply Qfloor_le | apply Qlt_floor]].
    + rewrite Z.min_r by exact H.
      split; [lia | right; left; split; [|reflexivity]].
      apply Qle_trans with (inject_Z (Qfloor x)); [rewrite <- Zle_Qle; lia | apply Qfloor_le].
Qed.

(** ** BatchProcessor: the tally invariant *)

Definition tally_ok (b : BatchProcessor) : Prop :=
  processed_files b = List.length (fixed_files b) + List.length (skipped_files b)
                      + List.length (failed_files b).

Lemma tally_ok_step b path result :
  tally_ok b -> tally_ok (process_file_result b path result).
Proof.
  unfold tally_ok; intros H.
  destruct result; simpl; rewrite ?List.length_app; simpl; lia.
Qed.

Lemma tally_ok_fold rs b :
  tally_ok b ->
  tally_ok (fold_left (fun b pr => process_file_result b (fst pr) (snd pr)) rs b).
Proof.
  revert b; induction rs as [|pr rs IH]; intros b H; simpl; auto.
  apply IH, tally_ok_step, H.
Qed.

(** C10: starting from [BatchProcessor::new] and after any sequence of
    [process_file_result] calls, [processed_files] equals
    [fixed_files.len() + skipped_files.len() + failed_files.len()]. *)
Theorem batch_tally_invariant (total : nat) (rs : list (string * FileResult)) :
  processed_files (run_batch total rs) =
  List.length (fixed_files (run_batch total rs)) + List.length (skipped_files (run_batch total rs))
  + List.length (failed_files (run_batch total rs)).
Proof.
  apply (tally_ok_fold rs (batch_new total)).
  reflexivity.
Qed.

(** * Further properties of the code *)

(** ** Engine: shape of the result *)

Lemma hdr_scan_miss m l st :
  existsb (color_matches m) l = false -> hdr_scan m l st = (st, false).
Proof.
  induction l as [|h l IH]; simpl; auto.
  unfold color_matches at 1; destruct (contains _ _); simpl; [discriminate | exact IH].
Qed.

Lemma unsupported_scan_spec m l st :
  unsupported_scan m l st =
  if existsb (color_matches m) l
  then emit (unsupported_violation_of m) 25 (Some sdr_recommendation) st else st.
Proof.
  induction l as [|u l IH]; simpl; auto.
  unfold color_matches at 1; destruct (contains _ _); simpl; [reflexivity | exact IH].
Qed.

Lemma check_color_spec std m st :
  check_color std m st =
  if existsb (color_matches m) (hdr_restrictions std)
  then emit (hdr_violation_of m) 30 (Some sdr_recommendation) st
  else if existsb (color_matches m) (unsupported_color_spaces std)
  then emit (unsupported_violation_of m) 25 (Some sdr_recommendation) st
  else st.
Proof.
  unfold check_color.
  destruct (existsb (color_matches m) (hdr_restrictions std)) eqn:E.
  - rewrite (hdr_scan_hit m _ st E); reflexivity.
  - rewrite (hdr_scan_miss m _ st E); simpl; apply unsupported_scan_spec.
Qed.

Lemma abs_of_emit v d r st :
  abs_of (emit v d r st) =
  abs_emit (sc_of v) d (match r with Some _ => true | None => false end) (abs_of st).
Proof.
  unfold abs_of, emit, abs_emit; simpl.
  rewrite map_app; destruct r; simpl; rewrite ?List.length_app; simpl;
    f_equal; f_equal; lia.
Qed.

Ltac abs_step :=
  repeat match goal with
  | |- context [if ?c then _ else _] => destruct c eqn:?
  end; simpl; rewrite ?abs_of_emit; reflexivity.

Lemma analyze_compliance_abs (std : ContentStandards) (m : VideoMetadata) :
  let r := analyze_compliance std m in
  (map sc_of (violations r), score r, List.length (recommendations r)) =
  abs_analyze (vec_contains (preferred_codecs std) (codec m))
    (vec_contains (preferred_resolutions std) (resolution m))
    (vec_contains (acceptable_resolutions std) (resolution m))
    (vec_contains (unsupported_containers std) (to_lowercase (container m)))
    (vec_contains (audio_preferred_codecs std) (audio_codec m))
    (vec_contains (audio_acceptable_codecs std) (audio_codec m))
    (existsb (color_matches m) (hdr_restrictions std))
    (existsb (color_matches m) (unsupported_color_spaces std)) /\
  is_compliant r = forallb (fun sc => severity_eqb (fst sc) Info) (map sc_of (violations r)).
Proof.
  cbv zeta; split.
  - unfold analyze_compliance, abs_analyze; simpl.
    change (map sc_of _, _, _) with (abs_of (check_color std m (check_audio std m
      (check_container std m (check_resolution std m (check_codec std m init_state)))))).
    rewrite check_color_spec.
    assert (E1 : abs_of (check_codec std m init_state) =
                 abs_codec (vec_contains (preferred_codecs std) (codec m)) ([], 100, 0))
      by (unfold check_codec, abs_codec; abs_step).
    assert (E2 : forall st, abs_of (check_resolution std m st) =
               abs_resolution (vec_contains (preferred_resolutions std) (resolution m))
                 (vec_contains (acceptable_resolutions std) (resolution m)) (abs_of st))
      by (intros st; unfold check_resolution, abs_resolution; abs_step).
    assert (E3 : forall st, abs_of (check_container std m st) =
               abs_container (vec_contains (unsupported_containers std)
                                (to_lowercase (container m))) (abs_of st))
      by (intros st; unfold check_container, abs_container; abs_step).
    assert (E4 : forall st, abs_of (check_audio std m st) =
               abs_audio (vec_contains (audio_preferred_codecs std) (audio_codec m))
                 (vec_contains (audio_acceptable_codecs std) (audio_codec m)) (abs_of st))
      by (intros st; unfold check_audio, abs_audio; abs_step).
    assert (E5 : forall st, abs_of
              (if existsb (color_matches m) (hdr_restrictions std)
               then emit (hdr_violation_of m) 30 (Some sdr_recommendation) st
               else if existsb (color_matches m) (unsupported_color_spaces std)
               then emit (unsupported_violation_of m) 25 (Some sdr_recommendation) st
               else st) =
              abs_color (existsb (color_matches m) (hdr_restrictions std))
                (existsb (color_matches m) (unsupported_color_spaces std)) (abs_of st))
      by (intros st; unfold abs_color; abs_step).
    rewrite E5, E4, E3, E2, E1; reflexivity.
  - unfold analyze_compliance; simpl.
    induction (st_violations _) as [|v vs IH]; simpl; auto.
    rewrite IH; unfold is_info; destruct (severity v); reflexivity.
Qed.

Lemma analyze_compliance_abs_ind (P : AbsState -> Prop) std m :
  (forall b1 b2 b3 b4 b5 b6 b7 b8, P (abs_analyze b1 b2 b3 b4 b5 b6 b7 b8)) ->
  let r := analyze_compliance std m in
  P (map sc_of (violations r), score r, List.length (recommendations r)).
Proof.
  intros H; cbv zeta; rewrite (proj1 (analyze_compliance_abs std m)); apply H.
Qed.

Lemma analyze_compliance_is_compliant_abs std m :
  is_compliant (analyze_compliance std m) =
  forallb (fun sc => severity_eqb (fst sc) Info) (map sc_of (violations (analyze_compliance std m))).
Proof. exact (proj2 (analyze_compliance_abs std m)). Qed.

Lemma any_category_abs p r :
  any_category p r = existsb (fun sc => p (snd sc)) (map sc_of (violations r)).
Proof.
  unfold any_category; induction (violations r) as [|v vs IH]; simpl; auto.
  rewrite IH; reflexivity.
Qed.

Ltac bool_cases8 :=
  intros b1 b2 b3 b4 b5 b6 b7 b8;
  destruct b1, b2, b3, b4, b5, b6, b7, b8.

(** Compliance leaves little room: whenever [analyze_compliance] reports a
    file compliant, its score is at least 95, since the only deduction
    an Info violation carries is the 5 points of an acceptable (but not
    preferred) audio codec. *)
Theorem compliant_score_at_least_95 (std : ContentStandards) (m : VideoMetadata)
    (H : is_compliant (analyze_compliance std m) = true) :
  95 <= score (analyze_compliance std m).
Proof.
  rewrite analyze_compliance_is_compliant_abs in H; revert H.
  apply (analyze_compliance_abs_ind
           (fun a => forallb (fun sc => severity_eqb (fst sc) Info) (fst (fst a)) = true ->
                     95 <= snd (fst a))).
  bool_cases8; simpl; intros; try discriminate; lia.
Qed.

Lemma compliant_score_at_least_95_witness :
  let m := mkMetadata "h264" "1920x1080" 0%Q 25%Q "aac" "mp4" "rec709" in
  is_compliant (analyze_compliance load_default m) = true /\
  95 <= score (analyze_compliance load_default m).
Proof.
  intros m; split; [vm_compute; reflexivity|].
  apply compliant_score_at_least_95; vm_compute; reflexivity.
Defined.

(** Every rule of [analyze_compliance] reports at most one violation, so
    each category occurs at most once among the violations and there are
    never more than five of them. *)
Theorem analyze_compliance_one_violation_per_category
    (std : ContentStandards) (m : VideoMetadata) :
  (forall c, List.length (filter (fun v => category_eqb (category v) c)
                            (violations (analyze_compliance std m))) <= 1) /\
  List.length (violations (analyze_compliance std m)) <= 5.
Proof.
  rewrite <- (List.length_map sc_of).
  assert (E : forall c, List.length (filter (fun v => category_eqb (category v) c)
                           (violations (analyze_compliance std m))) =
                        List.length (filter (fun sc => category_eqb (snd sc) c)
                           (map sc_of (violations (analyze_compliance std m)))))
    by (intros c; induction (violations _) as [|v vs IH]; simpl; auto;
        destruct (category_eqb (category v) c); simpl; auto).
  setoid_rewrite E.
  apply (analyze_compliance_abs_ind
           (fun a => (forall c, List.length (filter (fun sc => category_eqb (snd sc) c)
                                                (fst (fst a))) <= 1) /\
                     List.length (fst (fst a)) <= 5)).
  bool_cases8; split; try (intros []); simpl; lia.
Qed.

(** A recommendation is added for every Critical violation and for an
    audio codec that is neither preferred nor acceptable, and for nothing
    else; in particular a compliant result carries no recommendation. *)
Theorem analyze_compliance_recommendations (std : ContentStandards) (m : VideoMetadata) :
  let r := analyze_compliance std m in
  List.length (recommendations r) =
  List.length (filter (fun v => match severity v, category v with
                                | Critical, _ | Warning, AudioCodec => true
                                | _, _ => false
                                end) (violations r)) /\
  (is_compliant r = true -> recommendations r = []).
Proof.
  cbv zeta.
  rewrite analyze_compliance_is_compliant_abs.
  assert (E : forall l, List.length (filter (fun v => match severity v, category v with
                                | Critical, _ | Warning, AudioCodec => true
                                | _, _ => false end) l) =
                        List.length (filter (fun sc => match fst sc, snd sc with
                                | Critical, _ | Warning, AudioCodec => true
                                | _, _ => false end) (map sc_of l)))
    by (induction l as [|v l IH]; simpl; auto;
        destruct (severity v), (category v); simpl; auto).
  rewrite E.
  assert (Hn : forall l : list string, List.length l = 0 -> l = [])
    by (intros [|x l]; simpl; congruence).
  enough (List.length (recommendations (analyze_compliance std m)) =
          List.length (filter (fun sc => match fst sc, snd sc with
                                | Critical, _ | Warning, AudioCodec => true
                                | _, _ => false end)
                        (map sc_of (violations (analyze_compliance std m)))) /\
          (forallb (fun sc => severity_eqb (fst sc) Info)
             (map sc_of (violations (analyze_compliance std m))) = true ->
           List.length (recommendations (analyze_compliance std m)) = 0))
    by (destruct H as [H1 H2]; split; auto).
  apply (analyze_compliance_abs_ind
           (fun a => snd a = List.length (filter (fun sc => match fst sc, snd sc with
                                | Critical, _ | Warning, AudioCodec => true
                                | _, _ => false end) (fst (fst a))) /\
                     (forallb (fun sc => severity_eqb (fst sc) Info) (fst (fst a)) = true ->
                      snd a = 0))).
  bool_cases8; split; simpl; intros; try discriminate; reflexivity.
Qed.

(** Planning from an analysis: the content-aware planner stream-copies the
    video exactly when the codec and the resolution are both preferred and
    the color space is in neither restricted list; the audio is
    stream-copied exactly when the audio codec is preferred and not in the
    acceptable list (an acceptable codec is flagged Info, which still
    triggers the PCM re-encode). *)
Theorem plan_of_analysis_copy_iff (std : ContentStandards) (m m' : VideoMetadata)
    (ct : ContentType) :
  let r := analyze_compliance std m in
  (generate_optimized_video_fixes r ct m' = ["-c:v"; "copy"] <->
   vec_contains (preferred_codecs std) (codec m) = true /\
   vec_contains (preferred_resolutions std) (resolution m) = true /\
   existsb (color_matches m) (hdr_restrictions std) = false /\
   existsb (color_matches m) (unsupported_color_spaces std) = false) /\
  (generate_audio_fixes r = ["-c:a"; "copy"] <->
   vec_contains (audio_preferred_codecs std) (audio_codec m) = true /\
   vec_contains (audio_acceptable_codecs std) (audio_codec m) = false).
Proof.
  cbv zeta; unfold generate_optimized_video_fixes, generate_audio_fixes; cbv zeta.
  rewrite !(any_category_abs _ (analyze_compliance std m)).
  pose proof (proj1 (analyze_compliance_abs std m)) as E; cbv zeta in E; revert E.
  generalize (List.length (recommendations (analyze_compliance std m))) as n.
  generalize (score (analyze_compliance std m)) as s.
  generalize (map sc_of (violations (analyze_compliance std m))) as vs.
  generalize (vec_contains (preferred_codecs std) (codec m)) as b1.
  generalize (vec_contains (preferred_resolutions std) (resolution m)) as b2.
  generalize (vec_contains (acceptable_resolutions std) (resolution m)) as b3.
  generalize (vec_contains (unsupported_containers std) (to_lowercase (container m))) as b4.
  generalize (vec_contains (audio_preferred_codecs std) (audio_codec m)) as b5.
  generalize (vec_contains (audio_acceptable_codecs std) (audio_codec m)) as b6.
  generalize (existsb (color_matches m) (hdr_restrictions std)) as b7.
  generalize (existsb (color_matches m) (unsupported_color_spaces std)) as b8.
  intros b8 b7 b6 b5 b4 b3 b2 b1 vs s n E.
  destruct b1, b2, b3, b4, b5, b6, b7, b8; simpl in E;
    injection E as -> -> ->; simpl;
    split; split; intros H;
    first [ reflexivity | repeat split; reflexivity | discriminate H
          | intuition discriminate ].
Qed.

Lemma starts_with_app p s : starts_with p (p ++ s) = true.
Proof.
  induction p as [|c p IH]; simpl; auto.
  rewrite Ascii.eqb_refl; exact IH.
Qed.

Lemma starts_with_app_r p a b : starts_with p a = true -> starts_with p (a ++ b) = true.
Proof.
  revert a; induction p as [|c p IH]; intros [|d a]; simpl; auto; try discriminate.
  intros H; apply andb_prop in H as [H1 H2]; rewrite H1; simpl; auto.
Qed.

Lemma contains_app_l a b p : contains a p = true -> contains (a ++ b) p = true.
Proof.
  induction a as [|c a IH]; simpl; intros H.
  - destruct p; simpl in *; [destruct b; reflexivity | discriminate].
  - apply orb_prop in H as [H | H].
    + pose proof (starts_with_app_r p (String c a) b H) as H'; simpl in H'.
      rewrite H'; reflexivity.
    + rewrite IH, orb_true_r; auto.
Qed.

Lemma contains_app_r a b p : contains b p = true -> contains (a ++ b) p = true.
Proof.
  induction a as [|c a IH]; simpl; intros H; auto.
  rewrite IH, orb_true_r; auto.
Qed.

Lemma starts_with_refl p : starts_with p p = true.
Proof.
  induction p as [|c p IH]; simpl; auto.
  rewrite Ascii.eqb_refl; exact IH.
Qed.

Lemma contains_refl p : contains p p = true.
Proof.
  destruct p as [|c p]; simpl; auto.
  rewrite Ascii.eqb_refl, starts_with_refl; reflexivity.
Qed.

Lemma contains_join sep l x : In x l -> contains (join sep l) x = true.
Proof.
  induction l as [|y l IH]; simpl; intros H; [destruct H|].
  destruct H as [<- | H].
  - destruct l; [apply contains_refl | apply contains_app_l, contains_refl].
  - destruct l as [|z l]; [destruct H|].
    apply contains_app_r, contains_app_r, IH, H.
Qed.

Lemma viol_inv_init Q : viol_inv Q init_state.
Proof. intros v []. Qed.

Lemma viol_inv_emit Q v d r st : Q v -> viol_inv Q st -> viol_inv Q (emit v d r st).
Proof.
  intros Hv Hst w Hw; simpl in Hw.
  apply in_app_or in Hw as [Hw | [<- | []]]; auto.
Qed.

Ltac viol_inv_step :=
  repeat match goal with
  | |- viol_inv _ (if ?c then _ else _) => destruct c
  | |- viol_inv _ (emit _ _ _ _) => apply viol_inv_emit
  end.

(** An invariant of every violation the engine can report holds of the
    violations of any analysis. *)
Lemma analyze_compliance_viol_inv (Q : ComplianceViolation -> Prop) std m :
  (forall st, viol_inv Q st -> viol_inv Q (check_codec std m st)) ->
  (forall st, viol_inv Q st -> viol_inv Q (check_resolution std m st)) ->
  (forall st, viol_inv Q st -> viol_inv Q (check_container std m st)) ->
  (forall st, viol_inv Q st -> viol_inv Q (check_audio std m st)) ->
  Q (hdr_violation_of m) -> Q (unsupported_violation_of m) ->
  forall v, In v (violations (analyze_compliance std m)) -> Q v.
Proof.
  intros H1 H2 H3 H4 H5 H6.
  change (viol_inv Q (check_color std m (check_audio std m (check_container std m
            (check_resolution std m (check_codec std m init_state)))))).
  rewrite check_color_spec.
  assert (Hst : viol_inv Q (check_audio std m (check_container std m
            (check_resolution std m (check_codec std m init_state)))))
    by (apply H4, H3, H2, H1, viol_inv_init).
  viol_inv_step; auto.
Qed.

Lemma category_eqb_true a b : category_eqb a b = true -> a = b.
Proof. destruct a, b; simpl; congruence. Qed.

Lemma target_resolution_scan_1080 (vs : list ComplianceViolation) (E : string) :
  contains E "1920x1080" = true ->
  (forall v, In v vs -> category v = Resolution -> expected_value v = E) ->
  target_resolution_scan vs = None \/ target_resolution_scan vs = Some "1920:1080".
Proof.
  intros HE; induction vs as [|v vs IH]; simpl; intros Hv; auto.
  destruct (category_eqb (category v) Resolution) eqn:Ec.
  - rewrite (Hv v (or_introl eq_refl) (category_eqb_true _ _ Ec)), HE; auto.
  - apply IH; intros w Hw; apply Hv; auto.
Qed.

(** Whenever the standards list 1920x1080 among the preferred
    resolutions (the defaults do), the planner's target resolution for an
    analysis is always 1920:1080: the Resolution violation's expected
    value is the joined preferred list, which the planner tests for
    "1920x1080" before "1280x720", and with no Resolution violation the
    fallback is 1920:1080 as well. *)
Theorem target_resolution_of_analysis (std : ContentStandards) (m : VideoMetadata)
    (H : In "1920x1080" (preferred_resolutions std)) :
  determine_target_resolution (analyze_compliance std m) = Some "1920:1080".
Proof.
  set (E := "Preferred: " ++ join ", " (preferred_resolutions std)).
  assert (HE : contains E "1920x1080" = true)
    by (apply contains_app_r, contains_join, H).
  assert (Hinv : forall v, In v (violations (analyze_compliance std m)) ->
                   category v = Resolution -> expected_value v = E).
  { apply (analyze_compliance_viol_inv
             (fun v => category v = Resolution -> expected_value v = E));
      try (intros st Hst; unfold check_codec, check_resolution, check_container,
             check_audio; viol_inv_step; auto);
      simpl; try discriminate; auto. }
  unfold determine_target_resolution.
  destruct (target_resolution_scan_1080 _ E HE Hinv) as [-> | ->]; reflexivity.
Qed.

Lemma target_resolution_of_analysis_witness :
  In "1920x1080" (preferred_resolutions load_default) /\
  determine_target_resolution (analyze_compliance load_default
    (mkMetadata "h264" "1440x900" 0%Q 30%Q "aac" "mp4" "bt709")) = Some "1920:1080".
Proof.
  split; [simpl; tauto |].
  apply target_resolution_of_analysis; simpl; tauto.
Defined.


(** ** parse_time: reading the progress field back *)

Lemma string_app_nil_r s : s ++ "" = s.
Proof. induction s as [|c s IH]; simpl; congruence. Qed.

Lemma string_app_assoc a b c : (a ++ b) ++ c = a ++ b ++ c.
Proof. induction a as [|x a IH]; simpl; congruence. Qed.


Lemma starts_with_app_inv p a b :
  starts_with p (a ++ b) = true ->
  starts_with p a = true \/ exists p2, p = a ++ p2 /\ starts_with p2 b = true.
Proof.
  revert a; induction p as [|x p IH]; intros [|y a]; simpl; intros H; auto.
  - right; exists (String x p); auto.
  - apply andb_prop in H as [Hxy H].
    apply Ascii.eqb_eq in Hxy; subst y.
    destruct (IH a H) as [H' | [p2 [-> H']]].
    + left; rewrite Ascii.eqb_refl; auto.
    + right; exists p2; auto.
Qed.

Lemma all_chars_app f a b : all_chars f (a ++ b) = all_chars f a && all_chars f b.
Proof. induction a as [|c a IH]; simpl; auto. rewrite IH, andb_assoc; reflexivity. Qed.

Lemma contains_cons_false c a p :
  contains (String c a) p = false -> starts_with p (String c a) = false /\ contains a p = false.
Proof. simpl; intros H; apply orb_false_iff in H; exact H. Qed.

(** No occurrence of a pattern without whitespace straddles a boundary
    followed by whitespace. *)
Lemma until_next_app p a b :
  no_ws p = true -> contains a p = false -> ws_led b ->
  until_next p (a ++ b) = a ++ until_next p b.
Proof.
  intros Hp; induction a as [|c a IH]; intros Ha Hb; simpl; auto.
  apply contains_cons_false in Ha as [Hs Ha].
  destruct (starts_with p (String c (a ++ b))) eqn:E.
  - exfalso.
    apply (starts_with_app_inv p (String c a) b) in E as [E | [p2 [Ep E]]].
    + congruence.
    + destruct p2 as [|x p2].
      * rewrite string_app_nil_r in Ep; subst p.
        rewrite starts_with_refl in Hs; discriminate.
      * destruct Hb as [-> | [w [t [-> Hw]]]]; [discriminate|].
        simpl in E; apply andb_prop in E as [Exw _].
        apply Ascii.eqb_eq in Exw; subst w.
        subst p; unfold no_ws in Hp; rewrite all_chars_app in Hp; simpl in Hp.
        rewrite Hw in Hp; rewrite andb_false_r in Hp; discriminate.
  - f_equal; apply IH; auto.
Qed.

Lemma ws_led_until_next p t : ws_led t -> ws_led (until_next p t).
Proof.
  intros [-> | [c [t' [-> Hc]]]]; simpl.
  - destruct (starts_with p ""); left; reflexivity.
  - destruct (starts_with p (String c t')); [left; reflexivity|].
    right; eauto.
Qed.

(** The only split of ["time="] whose tail starts ["time=..."] is the
    trivial one. *)
Lemma time_eq_split c a p2 r :
  "time=" = String c a ++ p2 -> starts_with p2 ("time=" ++ r) = true -> p2 = "".
Proof.
  intros E H; simpl in E; injection E as Ec E; subst c.
  do 4 (destruct a as [|? a]; simpl in E;
        [subst p2; simpl in H; discriminate H | injection E as ? E; subst]).
  destruct a as [|? a]; simpl in E; [subst p2; reflexivity | discriminate].
Qed.

Lemma after_first_time prefix r :
  contains prefix "time=" = false -> after_first "time=" (prefix ++ "time=" ++ r) = Some r.
Proof.
  induction prefix as [|c a IH]; intros H.
  - reflexivity.
  - apply contains_cons_false in H as [Hs H].
    change (String c a ++ "time=" ++ r) with (String c (a ++ "time=" ++ r)).
    cbn [after_first].
    destruct (starts_with "time=" (String c (a ++ "time=" ++ r))) eqn:E.
    + exfalso.
      apply (starts_with_app_inv "time=" (String c a) ("time=" ++ r)) in E
        as [E | [p2 [Ep E]]]; [congruence|].
      pose proof (time_eq_split c a p2 r Ep E) as ->.
      rewrite string_app_nil_r in Ep; rewrite <- Ep in Hs; discriminate.
    + apply IH, H.
Qed.

Lemma take_word_app w t : no_ws w = true -> ws_led t -> take_word (w ++ t) = w.
Proof.
  unfold no_ws; intros Hw Ht; induction w as [|c w IH]; simpl in *.
  - destruct Ht as [-> | [c [t' [-> Hc]]]]; simpl; [reflexivity | rewrite Hc; reflexivity].
  - apply andb_prop in Hw as [Hc Hw]; apply negb_true_iff in Hc; rewrite Hc, IH; auto.
Qed.

Lemma first_word_app c w t :
  is_whitespace c = false -> first_word (String c w ++ t) = Some (take_word (String c w ++ t)).
Proof. intros Hc; simpl; rewrite Hc; reflexivity. Qed.

Lemma split_char_no sep a : no_char sep a = true -> split_char sep a = [a].
Proof.
  unfold no_char; induction a as [|c a IH]; simpl; intros H; auto.
  apply andb_prop in H as [Hc H]; apply negb_true_iff in Hc; rewrite Hc, IH; auto.
Qed.

Lemma split_char_app sep a b :
  no_char sep a = true -> split_char sep (a ++ String sep b) = a :: split_char sep b.
Proof.
  unfold no_char; induction a as [|c a IH]; simpl; intros H.
  - rewrite Ascii.eqb_refl; reflexivity.
  - apply andb_prop in H as [Hc H]; apply negb_true_iff in Hc; rewrite Hc, IH; auto.
Qed.

Lemma split_char_app_lit sep a b :
  no_char sep a = true -> split_char sep (a ++ String sep EmptyString ++ b) = a :: split_char sep b.
Proof. apply split_char_app. Qed.

Lemma time_field_no_ws s : time_field s = true -> no_ws s = true.
Proof.
  unfold time_field, no_ws; induction s as [|c s IH]; simpl; auto; intros H.
  apply andb_prop in H as [H1 H2]; apply andb_prop in H1 as [H1 _].
  rewrite H1, IH; auto.
Qed.

Lemma time_field_no_colon s : time_field s = true -> no_char ":" s = true.
Proof.
  unfold time_field, no_char; induction s as [|c s IH]; simpl; auto; intros H.
  apply andb_prop in H as [H1 H2]; apply andb_prop in H1 as [_ H1].
  rewrite H1, IH; auto.
Qed.

(** [parse_time] reads back an [HH:MM:SS] field that follows the first
    ["time="] of a progress line and is ended by whitespace or the end
    of the line, whatever follows it, as [h*3600 + m*60 + s] in f64
    arithmetic. *)
Theorem parse_time_field (parse_f64 : string -> option Q)
    (prefix hs ms ss tail : string) (h mi s : Q)
    (Hpre : contains prefix "time=" = false)
    (Hfield : contains (hs ++ ":" ++ ms ++ ":" ++ ss) "time=" = false)
    (Hh : time_field hs = true) (Hm : time_field ms = true) (Hs : time_field ss = true)
    (Htail : tail = "" \/ exists c t, tail = String c t /\ is_whitespace c = true)
    (Ph : parse_f64 hs = Some h) (Pm : parse_f64 ms = Some mi) (Ps : parse_f64 ss = Some s) :
  parse_time parse_f64 (prefix ++ "time=" ++ hs ++ ":" ++ ms ++ ":" ++ ss ++ tail) =
  Some (fadd (fadd (fmul h 3600) (fmul mi 60)) s).
Proof.
  set (w := hs ++ ":" ++ ms ++ ":" ++ ss).
  assert (Ew : hs ++ ":" ++ ms ++ ":" ++ ss ++ tail = w ++ tail)
    by (unfold w; rewrite !string_app_assoc; reflexivity).
  rewrite Ew.
  assert (Hw : no_ws w = true).
  { pose proof (time_field_no_ws hs Hh) as A; pose proof (time_field_no_ws ms Hm) as B;
    pose proof (time_field_no_ws ss Hs) as C.
    unfold w, no_ws in *; rewrite !all_chars_app; simpl.
    rewrite A, B, C; reflexivity. }
  assert (Hws : ws_led (until_next "time=" tail)) by (apply ws_led_until_next, Htail).
  unfold parse_time.
  rewrite (contains_app_r prefix _ "time=")
    by (apply contains_app_l, contains_refl).
  unfold split_second; rewrite (after_first_time prefix (w ++ tail) Hpre).
  rewrite (until_next_app "time=" w tail eq_refl Hfield Htail).
  destruct hs as [|c0 hs0] eqn:Ehs.
  - (* the field starts with the colon *)
    change (w ++ until_next "time=" tail) with
      (String ":" (ms ++ ":" ++ ss) ++ until_next "time=" tail).
    rewrite first_word_app by reflexivity.
    change (String ":" (ms ++ ":" ++ ss)) with w.
    rewrite (take_word_app w _ Hw Hws).
    unfold w.
    rewrite (split_char_app_lit ":" "" (ms ++ ":" ++ ss) eq_refl).
    rewrite (split_char_app_lit ":" ms ss (time_field_no_colon ms Hm)).
    rewrite (split_char_no ":" ss (time_field_no_colon ss Hs)).
    rewrite Ph, Pm, Ps; reflexivity.
  - assert (Hc0 : is_whitespace c0 = false).
    { simpl in Hh; apply andb_prop in Hh as [Hh _]; apply andb_prop in Hh as [Hh _].
      apply negb_true_iff; exact Hh. }
    change (w ++ until_next "time=" tail) with
      (String c0 (hs0 ++ ":" ++ ms ++ ":" ++ ss) ++ until_next "time=" tail).
    rewrite first_word_app by exact Hc0.
    change (String c0 (hs0 ++ ":" ++ ms ++ ":" ++ ss)) with w.
    rewrite (take_word_app w _ Hw Hws).
    unfold w.
    rewrite (split_char_app_lit ":" (String c0 hs0) (ms ++ ":" ++ ss)
               (time_field_no_colon _ Hh)).
    rewrite (split_char_app_lit ":" ms ss (time_field_no_colon ms Hm)).
    rewrite (split_char_no ":" ss (time_field_no_colon ss Hs)).
    rewrite Ph, Pm, Ps; reflexivity.
Qed.

Lemma parse_time_field_witness :
  parse_time parse_simple_decimal
    ("frame=1000 fps=30 " ++ "time=" ++ "00" ++ ":" ++ "01" ++ ":" ++ "23.45"
     ++ " bitrate=1000k") =
  Some (fadd (fadd (fmul (f64_lit 0 1) 3600) (fmul (f64_lit 1 1) 60)) (f64_lit 2345 100)).
Proof.
  apply parse_time_field; try reflexivity.
  right; exists " "%char, "bitrate=1000k"; split; reflexivity.
Defined.

(** ** Planner decisions and the ffmpeg command *)

(** Hardware decoding is requested for an analysis only when the video
    is re-encoded as well: the rules that do not touch the video
    (container and audio) can contribute at most two violations. *)
Theorem hw_decode_implies_reencode (std : ContentStandards) (m m' : VideoMetadata)
    (ct : ContentType)
    (H : should_use_hw_decode (analyze_compliance std m) = true) :
  generate_optimized_video_fixes (analyze_compliance std m) ct m' <> ["-c:v"; "copy"].
Proof.
  revert H; unfold should_use_hw_decode, generate_optimized_video_fixes; cbv zeta.
  rewrite !(any_category_abs _ (analyze_compliance std m)).
  rewrite <- (List.length_map sc_of).
  apply (analyze_compliance_abs_ind
    (fun a => (2 <? List.length (fst (fst a)))%nat
              || existsb (fun sc => category_eqb (snd sc) Resolution
                                    || category_eqb (snd sc) ColorSpace
                                    || category_eqb (snd sc) HDR) (fst (fst a)) = true ->
              (if existsb (fun sc => category_eqb (snd sc) VideoCodec
                                     || category_eqb (snd sc) Resolution
                                     || category_eqb (snd sc) ColorSpace
                                     || category_eqb (snd sc) HDR) (fst (fst a))
               then (["-c:v"; "h264_nvenc"; "-profile:v"; "high"; "-pix_fmt"; "yuv420p"]
                     ++ content_tuning ct
                     ++ (if existsb (fun sc => category_eqb (snd sc) Resolution) (fst (fst a))
                         then scale_args (analyze_compliance std m) else [])
                     ++ (if existsb (fun sc => category_eqb (snd sc) ColorSpace
                                               || category_eqb (snd sc) HDR) (fst (fst a))
                         then color_args else []))%list
               else ["-c:v"; "copy"]) <> ["-c:v"; "copy"])).
  bool_cases8; simpl; intros H; try discriminate H; discriminate.
Qed.

Lemma hw_decode_implies_reencode_witness :
  let m := mkMetadata "h264" "1440x900" 0%Q 30%Q "pcm" "mp4" "bt709" in
  should_use_hw_decode (analyze_compliance load_default m) = true /\
  generate_optimized_video_fixes (analyze_compliance load_default m) LiveAction m
    <> ["-c:v"; "copy"].
Proof.
  intros m; split; [vm_compute; reflexivity|].
  apply hw_decode_implies_reencode; vm_compute; reflexivity.
Defined.


Lemma count_occ_scale_args r x :
  x = "-c:v" \/ x = "-c:a" -> count_occ string_dec (scale_args r) x = 0.
Proof.
  intros Hx; unfold scale_args.
  destruct (determine_target_resolution r) as [res|]; [|reflexivity].
  destruct Hx; subst x;
    rewrite !count_occ_cons_neq by discriminate; reflexivity.
Qed.

Lemma count_occ_video_fixes r x :
  x = "-c:v" \/ x = "-c:a" ->
  count_occ string_dec (generate_video_fixes r) x = if string_dec x "-c:v" then 1 else 0.
Proof.
  intros Hx; unfold generate_video_fixes; cbv zeta.
  repeat match goal with
  | |- context [any_category ?p r] => destruct (any_category p r)
  end; cbv [orb];
  repeat rewrite count_occ_app; rewrite ?count_occ_scale_args by exact Hx;
  destruct Hx; subst x; reflexivity.
Qed.

Lemma count_occ_optimized_video_fixes r ct m x :
  x = "-c:v" \/ x = "-c:a" ->
  count_occ string_dec (generate_optimized_video_fixes r ct m) x =
  if string_dec x "-c:v" then 1 else 0.
Proof.
  intros Hx; unfold generate_optimized_video_fixes; cbv zeta.
  repeat match goal with
  | |- context [any_category ?p r] => destruct (any_category p r)
  end; cbv [orb];
  repeat rewrite count_occ_app; rewrite ?count_occ_scale_args by exact Hx;
  destruct ct, Hx; subst x; reflexivity.
Qed.

Lemma count_occ_audio_fixes r x :
  x = "-c:v" \/ x = "-c:a" ->
  count_occ string_dec (generate_audio_fixes r) x = if string_dec x "-c:a" then 1 else 0.
Proof.
  intros Hx; unfold generate_audio_fixes; cbv zeta.
  destruct (any_category _ r), Hx; subst x; reflexivity.
Qed.

(** Both commands select exactly one video codec ([-c:v]) and exactly
    one audio codec ([-c:a]), for any plan, as long as the input and
    output paths are not themselves these flags. *)
Theorem ffmpeg_args_single_codecs (input output : string) (r : ComplianceResult)
    (ct : ContentType) (m : VideoMetadata)
    (Hi1 : input <> "-c:v") (Hi2 : input <> "-c:a")
    (Ho1 : output <> "-c:v") (Ho2 : output <> "-c:a") :
  count_occ string_dec (compliance_ffmpeg_args input output r) "-c:v" = 1 /\
  count_occ string_dec (compliance_ffmpeg_args input output r) "-c:a" = 1 /\
  count_occ string_dec (optimized_ffmpeg_args input output r ct m) "-c:v" = 1 /\
  count_occ string_dec (optimized_ffmpeg_args input output r ct m) "-c:a" = 1.
Proof.
  unfold compliance_ffmpeg_args, optimized_ffmpeg_args.
  repeat split; repeat rewrite count_occ_app;
    rewrite ?count_occ_video_fixes, ?count_occ_optimized_video_fixes,
      ?count_occ_audio_fixes by auto;
    destruct (should_use_hw_decode r);
    rewrite !count_occ_cons_neq by (discriminate || congruence);
    reflexivity.
Qed.

Lemma ffmpeg_args_single_codecs_witness :
  let m := mkMetadata "hevc" "3840x2160" 0%Q 24%Q "aac" "mkv" "bt2020" in
  let r := analyze_compliance load_default m in
  count_occ string_dec (compliance_ffmpeg_args "in.mkv" "out/in.compliant.mkv" r) "-c:v" = 1 /\
  count_occ string_dec (compliance_ffmpeg_args "in.mkv" "out/in.compliant.mkv" r) "-c:a" = 1 /\
  count_occ string_dec (optimized_ffmpeg_args "in.mkv" "out/in.mkv" r LiveAction m) "-c:v" = 1 /\
  count_occ string_dec (optimized_ffmpeg_args "in.mkv" "out/in.mkv" r LiveAction m) "-c:a" = 1.
Proof.
  intros m r.
  destruct (ffmpeg_args_single_codecs "in.mkv" "out/in.compliant.mkv" r LiveAction m)
    as [A [B _]]; try discriminate.
  destruct (ffmpeg_args_single_codecs "in.mkv" "out/in.mkv" r LiveAction m)
    as [_ [_ [C D]]]; try discriminate.
  repeat split; assumption.
Defined.

(** ** get_optimal_bitrate *)

(** The bitrate table orders the content types the same way at every
    resolution: screen captures and presentations get the least,
    animation and unknown content the same middle rate, live action the
    most; within a content type a resolution naming 1920x1080 gets more
    than one naming only 1280x720, which gets more than any other. *)
Theorem get_optimal_bitrate_order (res : string) :
  get_optimal_bitrate ScreenCapture res = get_optimal_bitrate Presentation res /\
  get_optimal_bitrate Unknown res = get_optimal_bitrate Animation res /\
  (get_optimal_bitrate ScreenCapture res < get_optimal_bitrate Animation res)%N /\
  (get_optimal_bitrate Animation res < get_optimal_bitrate LiveAction res)%N /\
  (forall ct, contains res "1920x1080" = true ->
     (get_optimal_bitrate ct "1280x720" < get_optimal_bitrate ct res)%N) /\
  (forall ct, contains res "1920x1080" = false -> contains res "1280x720" = false ->
     (get_optimal_bitrate ct res < get_optimal_bitrate ct "1280x720")%N).
Proof.
  unfold get_optimal_bitrate.
  repeat split; try (intros ct; destruct ct; intros);
    repeat match goal with
    | H : ?c = _ |- context [?c] => rewrite H
    | |- context [if contains res ?p then _ else _] => destruct (contains res p)
    end; first [reflexivity | vm_compute; reflexivity].
Qed.

(** ** File names and directory listing *)

Lemma string_length_app a b : String.length (a ++ b) = String.length a + String.length b.
Proof. induction a as [|c a IH]; simpl; auto. Qed.

Lemma split_last_dot_some s b a :
  split_last_dot s = Some (b, a) -> s = b ++ String "." a /\ no_char "." a = true.
Proof.
  revert b; induction s as [|c s IH]; intros b; simpl; [discriminate|].
  destruct (split_last_dot s) as [[b' a']|] eqn:E.
  - intros H; injection H as <- <-.
    destruct (IH b' eq_refl) as [-> Ha]; split; auto.
  - destruct (Ascii.eqb c ".") eqn:Ec; [|discriminate].
    intros H; injection H as <- <-.
    apply Ascii.eqb_eq in Ec; subst c; split; [reflexivity|].
    clear IH; induction s as [|d s IHs]; simpl in *; auto.
    destruct (split_last_dot s) as [[? ?]|]; [discriminate|].
    destruct (Ascii.eqb d ".") eqn:Ed; [discriminate|].
    unfold no_char in *; simpl; rewrite Ed; simpl; auto.
Qed.

Lemma split_last_dot_no_dot a : no_char "." a = true -> split_last_dot a = None.
Proof.
  unfold no_char; induction a as [|c a IH]; simpl; auto; intros H.
  apply andb_prop in H as [Hc H]; apply negb_true_iff in Hc.
  rewrite IH, Hc; auto.
Qed.

Lemma split_last_dot_app b a :
  no_char "." a = true -> split_last_dot (b ++ String "." a) = Some (b, a).
Proof.
  intros Ha; induction b as [|c b IH]; simpl.
  - rewrite split_last_dot_no_dot by exact Ha; reflexivity.
  - change (split_last_dot (b ++ String "." a)) with (split_last_dot (b ++ String "." a)).
    rewrite IH; reflexivity.
Qed.

(** The legacy planner's output name is strictly longer than the input's
    file name ([.compliant] is always inserted), so writing it next to
    the input never overwrites the input. *)
Theorem output_filename_longer (file : string) (r : ComplianceResult) :
  String.length file < String.length (generate_compliance_output_filename file r).
Proof.
  unfold generate_compliance_output_filename, file_stem, extension, rsplit_file_at_dot.
  cbv zeta.
  set (sfx := (if any_category (fun c => category_eqb c Resolution) r then ".scaled" else "")
      ++ (if any_category (fun c => category_eqb c VideoCodec) r then ".h264" else "")
      ++ (if any_category (fun c => category_eqb c Audio || category_eqb c AudioCodec) r
          then ".aac" else "")
      ++ (if any_category (fun c => category_eqb c ColorSpace || category_eqb c HDR) r
          then ".rec709" else "")).
  clearbody sfx.
  change (".compliant" ++ sfx) with (String "." (String "c" (String "o" (String "m"
    (String "p" (String "l" (String "i" (String "a" (String "n" (String "t" sfx)))))))))).
  destruct (String.eqb file "..") eqn:Edd.
  - simpl option_default; rewrite !string_length_app; simpl; lia.
  - destruct (split_last_dot file) as [[b a]|] eqn:Es.
    + destruct (String.eqb b "") eqn:Eb; simpl option_default.
      * rewrite !string_length_app; simpl; lia.
      * destruct (split_last_dot_some file b a Es) as [-> _].
        rewrite !string_length_app; simpl.
        destruct (String.eqb_spec a ""); [subst a|];
          simpl; rewrite ?string_length_app; simpl; lia.
    + simpl option_default; rewrite !string_length_app; simpl; lia.
Qed.

(** A directory entry counts as a video exactly when its name is a
    non-empty stem followed by [.mp4] or [.avi], in lower case
    ([x.MP4] and the hidden file [.mp4] do not count). *)
Theorem is_video_entry_iff (file : string) :
  is_video_entry file = true <->
  exists stem, stem <> "" /\ (file = stem ++ ".mp4" \/ file = stem ++ ".avi").
Proof.
  unfold is_video_entry, extension, rsplit_file_at_dot.
  split.
  - destruct (String.eqb file "..") eqn:Edd; [discriminate|].
    destruct (split_last_dot file) as [[b a]|] eqn:Es; [|discriminate].
    destruct (String.eqb b "") eqn:Eb; [discriminate|].
    destruct (split_last_dot_some file b a Es) as [-> _].
    intros H; exists b; split; [intros ->; discriminate|].
    apply orb_true_iff in H as [H | H]; apply String.eqb_eq in H; subst a; auto.
  - intros [stem [Hs [-> | ->]]];
      (destruct (String.eqb _ "..") eqn:Edd;
       [apply String.eqb_eq in Edd; apply (f_equal String.length) in Edd;
        rewrite string_length_app in Edd; simpl in Edd; lia|]);
      rewrite split_last_dot_app by reflexivity;
      apply String.eqb_neq in Hs; rewrite Hs; reflexivity.
Qed.

Lemma in_ok_entries f l : In f (ok_entries l) <-> In (Some f) l.
Proof.
  induction l as [|[g|] l IH]; simpl; [tauto| |].
  - rewrite IH; split; intros [H|H]; auto; [left; congruence | left; congruence].
  - rewrite IH; split; [auto|intros [H|H]; [discriminate|auto]].
Qed.

(** [validate_directory]: a path that is not a directory is rejected
    with its name in the message; for a directory, a failing [read_dir]
    gives [Io] with its error; otherwise entries that could not be read
    are skipped and the result is the video entries in listing order, or
    [NoVideosFound] exactly when no readable entry is a video, and never
    an empty list. *)
Theorem validate_directory_outcomes (dir : string) (is_dir : bool)
    (read_dir : list (option string) + string) :
  (is_dir = false ->
   validate_directory dir is_dir read_dir = inr (InvalidPath ("Not a directory: " ++ dir))) /\
  (is_dir = true -> forall e, read_dir = inr e ->
   validate_directory dir is_dir read_dir = inr (Io e)) /\
  (is_dir = true -> forall listing, read_dir = inl listing ->
   (validate_directory dir is_dir read_dir = inr NoVideosFound <->
    forall f, In (Some f) listing -> is_video_entry f = false) /\
   (forall l, validate_directory dir is_dir read_dir = inl l ->
    l = filter is_video_entry (ok_entries listing) /\ l <> []) /\
   (forall msg, validate_directory dir is_dir read_dir <> inr (InvalidPath msg)) /\
   (forall e, validate_directory dir is_dir read_dir <> inr (Io e))).
Proof.
  unfold validate_directory.
  split; [intros ->; reflexivity|].
  split; [intros -> e ->; reflexivity|].
  intros -> listing ->; simpl.
  destruct (filter is_video_entry (ok_entries listing)) as [|f fs] eqn:E.
  - split; [|split; [intros l H; discriminate
                   | split; [intros msg; discriminate | intros e; discriminate]]].
    split; [|reflexivity]; intros _ f Hf.
    apply in_ok_entries in Hf.
    destruct (is_video_entry f) eqn:Ef; auto.
    assert (In f (filter is_video_entry (ok_entries listing))) by (apply filter_In; auto).
    rewrite E in H; destruct H.
  - split; [|split; [intros l H; injection H as <-; split; [reflexivity|discriminate]
                   | split; [intros msg; discriminate | intros e; discriminate]]].
    split; [discriminate|]; intros H.
    assert (Hf : In f (filter is_video_entry (ok_entries listing))) by (rewrite E; left; auto).
    apply filter_In in Hf as [Hf Hv].
    apply in_ok_entries in Hf; rewrite (H f Hf) in Hv; discriminate.
Qed.

(** ** ProcessingSummary *)

Lemma lookup_count_map_incr k k' l :
  lookup_count k (map_incr k' l) = lookup_count k l + (if String.eqb k k' then 1 else 0).
Proof.
  induction l as [|[k'' n] l IH]; simpl.
  - destruct (String.eqb k k'); reflexivity.
  - destruct (String.eqb_spec k' k'') as [<- | Hne]; simpl.
    + destruct (String.eqb k k'); lia.
    + destruct (String.eqb_spec k k'') as [-> | Hne2].
      * apply String.eqb_neq in Hne; rewrite String.eqb_sym, Hne; lia.
      * exact IH.
Qed.

Lemma sum_counts_map_incr k l : sum_counts (map_incr k l) = S (sum_counts l).
Proof.
  induction l as [|[k' n] l IH]; simpl; auto.
  destruct (String.eqb k k'); simpl; lia.
Qed.

Lemma run_processing_gen ms p0 :
  (0 <= total_size p0 < 2 ^ 64)%Z ->
  let p := fold_left (fun p ms => add_video p (fst ms) (snd ms)) ms p0 in
  total_videos p = total_videos p0 + List.length ms /\
  sum_counts (codecs p) = sum_counts (codecs p0) + List.length ms /\
  sum_counts (audio_codecs p) = sum_counts (audio_codecs p0) + List.length ms /\
  sum_counts (resolutions p) = sum_counts (resolutions p0) + List.length ms /\
  (forall k, lookup_count k (codecs p) = lookup_count k (codecs p0) + count_key codec k ms) /\
  (forall k, lookup_count k (audio_codecs p) =
             lookup_count k (audio_codecs p0) + count_key audio_codec k ms) /\
  (forall k, lookup_count k (resolutions p) =
             lookup_count k (resolutions p0) + count_key resolution k ms) /\
  total_size p = ((total_size p0 + fold_right Z.add 0 (map snd ms)) mod 2 ^ 64)%Z.
Proof.
  revert p0; induction ms as [|[m sz] ms IH]; intros p0 Hp0; cbv zeta; simpl.
  - rewrite Z.add_0_r, Z.mod_small by exact Hp0.
    unfold count_key; simpl; repeat split; intros; lia.
  - assert (Hr : (0 <= total_size (add_video p0 m sz) < 2 ^ 64)%Z)
      by (simpl; apply Z.mod_pos_bound; lia).
    destruct (IH (add_video p0 m sz) Hr) as (A & B & C & D & E & F & G & H).
    simpl in *.
    rewrite A, B, C, D, H, !sum_counts_map_incr.
    unfold count_key in *; simpl.
    repeat split; try lia.
    + intros k; rewrite E, lookup_count_map_incr.
      destruct (String.eqb k (codec m)); simpl; lia.
    + intros k; rewrite F, lookup_count_map_incr.
      destruct (String.eqb k (audio_codec m)); simpl; lia.
    + intros k; rewrite G, lookup_count_map_incr.
      destruct (String.eqb k (resolution m)); simpl; lia.
    + rewrite Zplus_mod_idemp_l; f_equal; lia.
Qed.

(** After [add_video] has run over the probed files, the video count and
    the total of each distribution map are the number of files, each map
    counts a key as often as the files carry it, and the total size is
    the sum of the sizes modulo 2^64 (the wrap-around of a release
    build's u64 addition). *)
Theorem run_processing_counts (ms : list (VideoMetadata * Z)) :
  let p := run_processing ms in
  total_videos p = List.length ms /\
  sum_counts (codecs p) = List.length ms /\
  sum_counts (audio_codecs p) = List.length ms /\
  sum_counts (resolutions p) = List.length ms /\
  (forall k, lookup_count k (codecs p) = count_key codec k ms) /\
  (forall k, lookup_count k (audio_codecs p) = count_key audio_codec k ms) /\
  (forall k, lookup_count k (resolutions p) = count_key resolution k ms) /\
  total_size p = (fold_right Z.add 0 (map snd ms) mod 2 ^ 64)%Z.
Proof.
  cbv zeta; unfold run_processing.
  destruct (run_processing_gen ms processing_new ltac:(simpl; lia))
    as (A & B & C & D & E & F & G & H).
  simpl in *; repeat split; auto.
Qed.

(** ** ComplianceSummary over analyses *)

Lemma fold_count_severity_totals vs s :
  let s' := fold_left count_severity vs s in
  total_files s' = total_files s /\
  compliant_files s' = compliant_files s /\
  non_compliant_files s' = non_compliant_files s /\
  files_by_score s' = files_by_score s /\
  critical_violations s' + warning_violations s' + info_violations s' =
  critical_violations s + warning_violations s + info_violations s + List.length vs.
Proof.
  revert s; induction vs as [|v vs IH]; intros s; cbv zeta; simpl.
  - repeat split; lia.
  - destruct (IH (count_severity s v)) as (A & B & C & D & E).
    rewrite A, B, C, D, E.
    unfold count_severity; destruct (severity v); simpl; repeat split; lia.
Qed.

Lemma analyze_compliance_at_most_five std m :
  List.length (violations (analyze_compliance std m)) <= 5.
Proof.
  rewrite <- (List.length_map sc_of).
  apply (analyze_compliance_abs_ind (fun a => List.length (fst (fst a)) <= 5)).
  bool_cases8; simpl; lia.
Qed.

Lemma add_result_totals s r n :
  let s' := add_result s r n in
  total_files s' = S (total_files s) /\
  compliant_files s' = compliant_files s + (if is_compliant r then 1 else 0) /\
  non_compliant_files s' = non_compliant_files s + (if is_compliant r then 0 else 1) /\
  files_by_score s' = (files_by_score s ++ [(n, score r)])%list /\
  critical_violations s' + warning_violations s' + info_violations s' =
  critical_violations s + warning_violations s + info_violations s
  + List.length (violations r).
Proof.
  cbv zeta; unfold add_result; cbv zeta.
  match goal with
  | |- context [fold_left count_severity ?vs ?s1] =>
      destruct (fold_count_severity_totals vs s1) as (A & B & C & D & E)
  end.
  cbv zeta in *; rewrite A, B, C, D, E; simpl.
  destruct (is_compliant r); repeat split; lia.
Qed.

Lemma run_summary_gen std (files : list (VideoMetadata * string)) s0 :
  let s := fold_left (fun s rn => add_result s (fst rn) (snd rn))
             (map (fun mf => (analyze_compliance std (fst mf), snd mf)) files) s0 in
  total_files s = total_files s0 + List.length files /\
  compliant_files s + non_compliant_files s =
    compliant_files s0 + non_compliant_files s0 + List.length files /\
  compliant_files s = compliant_files s0 +
    List.length (filter (fun mf => is_compliant (analyze_compliance std (fst mf))) files) /\
  files_by_score s = (files_by_score s0 ++
    map (fun mf => (snd mf, score (analyze_compliance std (fst mf)))) files)%list /\
  critical_violations s + warning_violations s + info_violations s <=
    critical_violations s0 + warning_violations s0 + info_violations s0
    + 5 * List.length files.
Proof.
  revert s0; induction files as [|[m n] files IH]; intros s0; cbv zeta.
  - simpl; rewrite app_nil_r; repeat split; lia.
  - pose proof (analyze_compliance_at_most_five std m) as H5.
    cbn [map fold_left fst snd filter].
    destruct (IH (add_result s0 (analyze_compliance std m) n)) as (A & B & C & D & E).
    destruct (add_result_totals s0 (analyze_compliance std m) n) as (A' & B' & C' & D' & E').
    cbv zeta in *.
    remember (analyze_compliance std m) as r eqn:Er.
    rewrite A, B, C, D; rewrite A', B', C', D' in *.
    rewrite <- app_assoc.
    destruct (is_compliant r); cbn [List.length app]; repeat split; lia.
Qed.

(** Over the analyses [process_directory] feeds to [add_result], the
    aggregator counts every file once, as compliant or not, keeps one
    (name, score) entry per file in order, and records at most five
    violations per file. *)
Theorem run_summary_totals (std : ContentStandards)
    (files : list (VideoMetadata * string)) :
  let s := run_summary (map (fun mf => (analyze_compliance std (fst mf), snd mf)) files) in
  total_files s = List.length files /\
  compliant_files s + non_compliant_files s = total_files s /\
  compliant_files s =
    List.length (filter (fun mf => is_compliant (analyze_compliance std (fst mf))) files) /\
  files_by_score s = map (fun mf => (snd mf, score (analyze_compliance std (fst mf)))) files /\
  critical_violations s + warning_violations s + info_violations s <= 5 * total_files s.
Proof.
  cbv zeta; unfold run_summary.
  destruct (run_summary_gen std files summary_new) as (A & B & C & D & E).
  cbv zeta in *; simpl in *.
  rewrite A; repeat split; lia || auto.
Qed.

(** ** format_duration width *)

Lemma pad2_length_nat k : k < 100 -> String.length (pad2 (Z.of_nat k)) = 2.
Proof.
  intros Hk.
  assert (Hall : forallb (fun k => Nat.eqb (String.length (pad2 (Z.of_nat k))) 2)
                   (seq 0 100) = true) by (vm_compute; reflexivity).
  rewrite forallb_forall in Hall.
  apply Nat.eqb_eq, Hall, in_seq; lia.
Qed.

Lemma pad2_length (n : Z) : (0 <= n < 100)%Z -> String.length (pad2 n) = 2.
Proof.
  intros Hn; rewrite <- (Z2Nat.id n) by lia; apply pad2_length_nat; lia.
Qed.

Lemma total_centisecs_nonneg (seconds : Q) : (0 <= total_centisecs seconds)%Z.
Proof.
  unfold total_centisecs.
  destruct (Qle_bool (fmul seconds 100) 0) eqn:E; [lia|].
  assert (H : (0 <= fmul seconds 100)%Q).
  { apply Qlt_le_weak, Qnot_le_lt; intros H; apply Qle_bool_iff in H; congruence. }
  apply Z.min_glb; [|lia].
  apply (Qfloor_resp_le 0) in H; simpl in H; exact H.
Qed.

(** Below 100 hours (36,000,000 centiseconds after the saturating cast),
    [format_duration] always renders the fixed-width form [HH:MM:SS.cc]
    of eleven characters: each of the four fields is two digits. *)
Theorem format_duration_width (seconds : Q)
    (H : (total_centisecs seconds < 36000000)%Z) :
  String.length (format_duration seconds) = 11.
Proof.
  pose proof (total_centisecs_nonneg seconds) as H0.
  unfold format_duration.
  set (c := total_centisecs seconds) in *.
  rewrite !string_length_app.
  rewrite (pad2_length (c / 360000)) by (split; [apply Z.div_pos | apply Z.div_lt_upper_bound]; lia).
  rewrite (pad2_length ((c mod 360000) / 6000)).
  2:{ pose proof (Z.mod_pos_bound c 360000 ltac:(lia)).
      split; [apply Z.div_pos | apply Z.div_lt_upper_bound]; lia. }
  rewrite (pad2_length ((c mod 6000) / 100)).
  2:{ pose proof (Z.mod_pos_bound c 6000 ltac:(lia)).
      split; [apply Z.div_pos | apply Z.div_lt_upper_bound]; lia. }
  rewrite (pad2_length (c mod 100)) by (apply Z.mod_pos_bound; lia).
  reflexivity.
Qed.

Lemma format_duration_width_witness :
  (total_centisecs (f64_lit 8345 100) < 36000000)%Z /\
  String.length (format_duration (f64_lit 8345 100)) = 11.
Proof.
  split; [vm_compute; reflexivity|].
  apply format_duration_width; vm_compute; reflexivity.
Defined.

(** ** One step of a batch *)

Lemma compliant_score_ge_95 std m :
  is_compliant (analyze_compliance std m) = true -> 95 <= score (analyze_compliance std m).
Proof.
  rewrite analyze_compliance_is_compliant_abs.
  apply (analyze_compliance_abs_ind
           (fun a => forallb (fun sc => severity_eqb (fst sc) Info) (fst (fst a)) = true ->
                     95 <= snd (fst a))).
  bool_cases8; simpl; intros; try discriminate; lia.
Qed.

(** One file of a batch, processed by [process_single_file_batch] and
    recorded by [process_file_result]: the file is listed as skipped
    exactly when it probes and its analysis is compliant (never
    transcoded, with a score of at least 95), and as failed exactly when
    the probe fails or the transcode of a non-compliant file fails, with
    that error. *)
Theorem batch_step_outcome
    (probe : string -> VideoMetadata + string)
    (transcode : string -> ComplianceResult -> VideoMetadata -> string + string)
    (engine : ContentStandards) (b : BatchProcessor) (path : string) :
  let b' := process_file_result b path
              (to_file_result (process_single_file_batch probe transcode engine path)) in
  processed_files b' = S (processed_files b) /\
  (skipped_files b' = (skipped_files b ++ [path])%list <->
   exists m, probe path = inl m /\ is_compliant (analyze_compliance engine m) = true /\
             95 <= score (analyze_compliance engine m)) /\
  (forall e, failed_files b' = (failed_files b ++ [(path, e)])%list <->
   probe path = inr e \/
   exists m, probe path = inl m /\ is_compliant (analyze_compliance engine m) = false /\
             transcode path (analyze_compliance engine m) m = inr e) /\
  (forall p, fixed_files b' = (fixed_files b ++ [p])%list <->
   exists m, probe path = inl m /\ is_compliant (analyze_compliance engine m) = false /\
             transcode path (analyze_compliance engine m) m = inl p).
Proof.
  assert (Hneq : forall {A} (l : list A) x, l <> (l ++ [x])%list)
    by (intros A l x H; apply (f_equal (@List.length A)) in H;
        rewrite List.length_app in H; simpl in H; lia).
  cbv zeta; unfold process_single_file_batch.
  destruct (probe path) as [m | e0] eqn:Ep.
  - destruct (is_compliant (analyze_compliance engine m)) eqn:Ec.
    + pose proof (compliant_score_ge_95 engine m Ec) as H95.
      cbn [process_file_result to_file_result skipped_files failed_files fixed_files
             processed_files]; split; [reflexivity|].
      split; [split; [intros _; exists m; auto | intros _; reflexivity]|].
      split; intros x; split; intros H.
      * exfalso; exact (Hneq _ _ _ H).
      * destruct H as [H | [m' [H [H' _]]]]; [discriminate|].
        injection H as <-; congruence.
      * exfalso; exact (Hneq _ _ _ H).
      * destruct H as [m' [H [H' _]]]; injection H as <-; congruence.
    + destruct (transcode path (analyze_compliance engine m) m) as [p0 | e1] eqn:Et;
        cbn [process_file_result to_file_result skipped_files failed_files fixed_files
             processed_files]; split; try reflexivity.
      * split; [split; [intros H; exfalso; exact (Hneq _ _ _ H)
                       | intros [m' [H [H' _]]]; injection H as <-; congruence]|].
        split; intros x; split; intros H.
        -- exfalso; exact (Hneq _ _ _ H).
        -- destruct H as [H | [m' [H [_ H']]]]; [discriminate|].
           injection H as <-; congruence.
        -- apply app_inv_head in H; injection H as <-; exists m; auto.
        -- destruct H as [m' [H [_ H']]]; injection H as <-.
           rewrite Et in H'; injection H' as <-; reflexivity.
      * split; [split; [intros H; exfalso; exact (Hneq _ _ _ H)
                       | intros [m' [H [H' _]]]; injection H as <-; congruence]|].
        split; intros x; split; intros H.
        -- apply app_inv_head in H; injection H as <-; right; exists m; auto.
        -- destruct H as [H | [m' [H [_ H']]]]; [discriminate|].
           injection H as <-; rewrite Et in H'; injection H' as <-; reflexivity.
        -- exfalso; exact (Hneq _ _ _ H).
        -- destruct H as [m' [H [_ H']]]; injection H as <-; congruence.
  - cbn [process_file_result to_file_result skipped_files failed_files fixed_files
         processed_files]; split; [reflexivity|].
    split; [split; [intros H; exfalso; exact (Hneq _ _ _ H)
                   | intros [m' [H _]]; discriminate]|].
    split; intros x; split; intros H.
    + apply app_inv_head in H; injection H as <-; left; reflexivity.
    + destruct H as [H | [m' [H _]]]; [injection H as <-; reflexivity | discriminate].
    + exfalso; exact (Hneq _ _ _ H).
    + destruct H as [m' [H _]]; discriminate.
Qed.

(** ** Distribution maps, decoders and output names *)

Lemma in_map_fst_map_incr k k' l :
  In k' (map fst (map_incr k l)) <-> k' = k \/ In k' (map fst l).
Proof.
  induction l as [|[k'' n] l IH]; simpl.
  - split; intros [H | []]; auto.
  - destruct (String.eqb_spec k k'') as [<- | Hne]; simpl.
    + split; intros H; repeat destruct H as [H | H]; subst; auto.
    + rewrite IH; split; intros H; repeat destruct H as [H | H]; subst; auto.
Qed.

Lemma nodup_map_incr k l : NoDup (map fst l) -> NoDup (map fst (map_incr k l)).
Proof.
  induction l as [|[k'' n] l IH]; simpl; intros H.
  - constructor; [intros []|constructor].
  - inversion H as [|x xs Hx Hl]; subst.
    destruct (String.eqb_spec k k'') as [<- | Hne]; simpl.
    + constructor; auto.
    + constructor; [|apply IH; auto].
      rewrite in_map_fst_map_incr; intros [-> | Hin]; [congruence | contradiction].
Qed.

(** The distribution maps [add_video] maintains never hold a key twice
    (the [entry] API), and hold exactly the values seen. *)
Theorem run_processing_keys (ms : list (VideoMetadata * Z)) :
  let p := run_processing ms in
  NoDup (map fst (codecs p)) /\ NoDup (map fst (audio_codecs p)) /\
  NoDup (map fst (resolutions p)) /\
  (forall k, In k (map fst (codecs p)) <-> exists x, In x ms /\ codec (fst x) = k) /\
  (forall k, In k (map fst (audio_codecs p)) <-> exists x, In x ms /\ audio_codec (fst x) = k) /\
  (forall k, In k (map fst (resolutions p)) <-> exists x, In x ms /\ resolution (fst x) = k).
Proof.
  cbv zeta; unfold run_processing.
  cut (forall p0,
         let p := fold_left (fun p ms => add_video p (fst ms) (snd ms)) ms p0 in
         (NoDup (map fst (codecs p0)) -> NoDup (map fst (codecs p))) /\
         (NoDup (map fst (audio_codecs p0)) -> NoDup (map fst (audio_codecs p))) /\
         (NoDup (map fst (resolutions p0)) -> NoDup (map fst (resolutions p))) /\
         (forall k, In k (map fst (codecs p)) <->
            In k (map fst (codecs p0)) \/ exists x, In x ms /\ codec (fst x) = k) /\
         (forall k, In k (map fst (audio_codecs p)) <->
            In k (map fst (audio_codecs p0)) \/ exists x, In x ms /\ audio_codec (fst x) = k) /\
         (forall k, In k (map fst (resolutions p)) <->
            In k (map fst (resolutions p0)) \/ exists x, In x ms /\ resolution (fst x) = k)).
  { intros Hc; destruct (Hc processing_new) as (A & B & C & D & E & F); cbv zeta in *.
    split; [apply A; constructor|]; split; [apply B; constructor|].
    split; [apply C; constructor|].
    split; [|split]; intros k; [rewrite D | rewrite E | rewrite F]; simpl; tauto. }
  induction ms as [|[m sz] ms IH]; intros p0; cbv zeta; simpl.
  - repeat split; auto; intros [H | [x [[] _]]]; auto.
  - destruct (IH (add_video p0 m sz)) as (A & B & C & D & E & F); cbv zeta in *; simpl in *.
    repeat split; intros.
    + apply A, nodup_map_incr; auto.
    + apply B, nodup_map_incr; auto.
    + apply C, nodup_map_incr; auto.
    + apply D in H; rewrite in_map_fst_map_incr in H.
      destruct H as [[-> | H] | [x [Hx <-]]]; eauto.
    + apply D; rewrite in_map_fst_map_incr.
      destruct H as [H | [x [[<- | Hx] <-]]]; simpl; auto; eauto.
    + apply E in H; rewrite in_map_fst_map_incr in H.
      destruct H as [[-> | H] | [x [Hx <-]]]; eauto.
    + apply E; rewrite in_map_fst_map_incr.
      destruct H as [H | [x [[<- | Hx] <-]]]; simpl; auto; eauto.
    + apply F in H; rewrite in_map_fst_map_incr in H.
      destruct H as [[-> | H] | [x [Hx <-]]]; eauto.
    + apply F; rewrite in_map_fst_map_incr.
      destruct H as [H | [x [[<- | Hx] <-]]]; simpl; auto; eauto.
Qed.

(** The legacy planner's output name for an analysis: the stem, then
    [.compliant], then a tag for each kind of fix in a fixed order:
    [.scaled] for a non-preferred resolution, [.h264] for a non-preferred
    codec, [.aac] for an audio codec that is flagged (also when it is
    merely acceptable, although the audio is then re-encoded to PCM),
    [.rec709] for a restricted color space. *)
Theorem output_filename_of_analysis (file : string) (std : ContentStandards)
    (m : VideoMetadata) :
  let ext := option_default (extension file) in
  generate_compliance_output_filename file (analyze_compliance std m) =
  (match file_stem file with Some s => s | None => file end)
  ++ ".compliant"
  ++ (if vec_contains (preferred_resolutions std) (resolution m) then "" else ".scaled")
  ++ (if vec_contains (preferred_codecs std) (codec m) then "" else ".h264")
  ++ (if vec_contains (audio_preferred_codecs std) (audio_codec m)
         && negb (vec_contains (audio_acceptable_codecs std) (audio_codec m))
      then "" else ".aac")
  ++ (if existsb (color_matches m) (hdr_restrictions std)
         || existsb (color_matches m) (unsupported_color_spaces std)
      then ".rec709" else "")
  ++ "." ++ (if String.eqb ext "" then "mp4" else ext).
Proof.
  cbv zeta; unfold generate_compliance_output_filename; cbv zeta.
  rewrite !(any_category_abs _ (analyze_compliance std m)).
  pose proof (proj1 (analyze_compliance_abs std m)) as E; cbv zeta in E; revert E.
  generalize (List.length (recommendations (analyze_compliance std m))) as n.
  generalize (score (analyze_compliance std m)) as s.
  generalize (map sc_of (violations (analyze_compliance std m))) as vs.
  generalize (vec_contains (preferred_codecs std) (codec m)) as b1.
  generalize (vec_contains (preferred_resolutions std) (resolution m)) as b2.
  generalize (vec_contains (acceptable_resolutions std) (resolution m)) as b3.
  generalize (vec_contains (unsupported_containers std) (to_lowercase (container m))) as b4.
  generalize (vec_contains (audio_preferred_codecs std) (audio_codec m)) as b5.
  generalize (vec_contains (audio_acceptable_codecs std) (audio_codec m)) as b6.
  generalize (existsb (color_matches m) (hdr_restrictions std)) as b7.
  generalize (existsb (color_matches m) (unsupported_color_spaces std)) as b8.
  intros b8 b7 b6 b5 b4 b3 b2 b1 vs s n E.
  destruct b1, b2, b3, b4, b5, b6, b7, b8; simpl in E;
    injection E as -> -> ->; reflexivity.
Qed.
